(** * audio_utils: a shallow embedding of [audio_utils/core.py] and
    [audio_utils/io.py], and the properties of the array utilities.

    Arrays are numpy arrays of rank 0 to 3 over a sample type [A]; Python
    exceptions and [warnings.warn] are threaded through the monad [py]. *)

From Stdlib Require Import ZArith QArith Ascii String.
From stdpp Require Import base list strings gmap.

(** ** Exceptions and warnings *)

(** The exceptions the two modules can raise. *)
Inductive exn : Set :=
| AssertionError
| IndexError
| ValueError
| ZeroDivisionError
| NameError
| FileExistsError
| OSError
| PermissionError.

(** The two calls of [warnings.warn] in [_check_audio_types]. *)
Inductive warning : Set :=
| ShapeWarning (channels samples : nat)
| ZerosWarning.

(** A Python computation: the warnings it emitted, in order, and either the
    exception that ended it or its value. *)
Record py (X : Type) : Type := Py {
  warnings : list warning;
  outcome : exn + X
}.

Arguments Py {X} _ _.
Arguments warnings {X} _.
Arguments outcome {X} _.

#[global] Instance py_ret : MRet py := λ X x, Py [] (inr x).

#[global] Instance py_bind : MBind py := λ X Y f m,
  match outcome m with
  | inl e => Py (warnings m) (inl e)
  | inr x => Py (warnings m ++ warnings (f x)) (outcome (f x))
  end.

Definition raise {X : Type} (e : exn) : py X := Py [] (inl e).

Definition warn (w : warning) : py () := Py [w] (inr ()).

(** [assert b] *)
Definition py_assert (b : bool) : py () :=
  if b then mret () else raise AssertionError.

(** ** numpy arrays *)

Inductive ndarray (A : Type) : Type :=
| Array0 (x : A)
| Array1 (xs : list A)
| Array2 (rows : list (list A))
| Array3 (blocks : list (list (list A))).

Arguments Array0 {A} x.
Arguments Array1 {A} xs.
Arguments Array2 {A} rows.
Arguments Array3 {A} blocks.

(** Length of the first row: the sample count of a rectangular block. *)
Definition row_len {A : Type} (rows : list (list A)) : nat :=
  match rows with
  | [] => 0
  | r :: _ => length r
  end.

(** [audio.shape] *)
Definition shape {A : Type} (audio : ndarray A) : list nat :=
  match audio with
  | Array0 _ => []
  | Array1 xs => [length xs]
  | Array2 rows => [length rows; row_len rows]
  | Array3 blocks =>
      [length blocks; row_len blocks; row_len (default [] (head blocks))]
  end.

(** [audio.ndim] *)
Definition ndim {A : Type} (audio : ndarray A) : nat := length (shape audio).

(** [len(audio)]: the extent of the FIRST axis. *)
Definition len {A : Type} (audio : ndarray A) : nat :=
  default 0 (head (shape audio)).

(** [shape[-k]] for [k = 1, 2]; only read on arrays that passed the rank
    assertion, where the entry exists. *)
Definition shape_neg {A : Type} (audio : ndarray A) (k : nat) : nat :=
  default 0 (rev (shape audio) !! (k - 1)).

(** A buffer of rank 2 with [C] channels of [N] samples each. *)
Definition has_shape {A : Type} (rows : list (list A)) (C N : nat) : Prop :=
  length rows = C ∧ Forall (λ r, length r = N) rows.

(** ** core.py: checking *)

Section Checking.
Context {A : Type}.
(** [x == 0] on a sample. *)
Variable is_zero : A → bool.

(** [np.all(audio == 0)] *)
Definition _is_zero (audio : ndarray A) : bool :=
  match audio with
  | Array0 x => is_zero x
  | Array1 xs => forallb is_zero xs
  | Array2 rows => forallb (forallb is_zero) rows
  | Array3 blocks => forallb (forallb (forallb is_zero)) blocks
  end.

(** The [isinstance] assertion holds by typing; the rank assertion and the
    two advisory warnings follow. *)
Definition _check_audio_types (audio : ndarray A) : py () :=
  py_assert (ndim audio =? 2);;
  (if shape_neg audio 1 <? shape_neg audio 2
   then warn (ShapeWarning (shape_neg audio 2) (shape_neg audio 1))
   else mret ());;
  (if _is_zero audio then warn ZerosWarning else mret ()).

Definition _is_mono (audio : ndarray A) : py bool :=
  _check_audio_types audio;;
  let num_channels := shape_neg audio 2 in
  mret (num_channels =? 1).

(** [audio[0]] *)
Definition getitem0 (audio : ndarray A) : py (ndarray A) :=
  match audio with
  | Array0 _ => raise IndexError
  | Array1 xs => from_option (λ x, mret (Array0 x)) (raise IndexError) (head xs)
  | Array2 rows => from_option (λ r, mret (Array1 r)) (raise IndexError) (head rows)
  | Array3 blocks =>
      from_option (λ b, mret (Array2 b)) (raise IndexError) (head blocks)
  end.

Definition librosa_input_wrap (audio : ndarray A) : py (ndarray A) :=
  _check_audio_types audio;;
  _is_mono audio ≫= λ mono : bool,
  if mono then getitem0 audio else mret audio.

(** [np.expand_dims(audio, axis=0)] when the array has rank 1. *)
Definition librosa_output_wrap (audio : ndarray A) : ndarray A :=
  match audio with
  | Array1 xs => Array2 [xs]
  | _ => audio
  end.
End Checking.

(** ** core.py: the coalescing sweep *)

Section Coalesce.
(** Timestamps are compared only through the caller's condition. *)
Context {T : Type}.
Variable condition : T → T → bool.

(** The three variables the loop carries. *)
Record sweep_state : Type := SweepState {
  last_start_time : T;
  last_end_time : T;
  coalesced_timestamps : list (T * T)
}.

(** One pass through the body of the [for] loop, at index [i]. *)
Definition loop_body (timestamps : list (T * T)) (st : sweep_state) (i : nat)
  : exn + sweep_state :=
  match timestamps !! i with
  | None => inl IndexError
  | Some (start_time, end_time) =>
      if condition (last_end_time st) start_time
      then inr (SweepState (last_start_time st) end_time
                  (coalesced_timestamps st))
      else
        let ts := (last_start_time st, end_time) in
        inr (SweepState start_time end_time (coalesced_timestamps st ++ [ts]))
  end.

(** The loop over a range of indices: the state reached, and the exception
    that stopped it if one was raised. *)
Fixpoint for_range (timestamps : list (T * T)) (idxs : list nat)
    (st : sweep_state) : sweep_state * option exn :=
  match idxs with
  | [] => (st, None)
  | i :: idxs' =>
      match loop_body timestamps st i with
      | inl e => (st, Some e)
      | inr st' => for_range timestamps idxs' st'
      end
  end.

(** [range(1, len(timestamps)+1)] *)
Definition sweep_range (timestamps : list (T * T)) : list nat :=
  seq 1 (length timestamps).

(** The sweep from the seed [timestamps[0]]. *)
Definition sweep (timestamps : list (T * T)) (seed : T * T)
  : sweep_state * option exn :=
  for_range timestamps (sweep_range timestamps)
    (SweepState seed.1 seed.2 []).

(** After the loop the list becomes an array and is printed and returned;
    the two [print] calls only write to standard output. *)
Definition _coalesce_timestamps (timestamps : list (T * T))
  : exn + list (T * T) :=
  match timestamps !! 0 with
  | None => inl IndexError
  | Some seed =>
      match sweep timestamps seed with
      | (_, Some e) => inl e
      | (st, None) => inr (coalesced_timestamps st)
      end
  end.
End Coalesce.

Arguments sweep_state T : clear implicits.
Arguments SweepState {T} _ _ _.

(** ** core.py: silence splitting *)

(** [x < y] on exact rationals. *)
Definition Qltb (x y : Q) : bool :=
  (Qnum x * Zpos (Qden y) <? Qnum y * Zpos (Qden x))%Z.

(** An integer brought into the range of int64, as numpy's integer
    arithmetic wraps. *)
Definition wrap64 (z : Z) : Z := ((z + 2 ^ 63) `mod` 2 ^ 64 - 2 ^ 63)%Z.

Definition int64_sub (x y : Z) : Z := wrap64 (x - y).
Definition int64_mul (x y : Z) : Z := wrap64 (x * y).
Definition int64_abs (x : Z) : Z := wrap64 (Z.abs x).

(** The value of an int64 converted to binary64: integers of at most 53
    bits are kept, longer ones are rounded to 53 significant bits, to
    nearest and to even on a tie.  (The result is again an integer.) *)
Definition float64_of_int (z : Z) : Z :=
  let m := Z.abs z in
  let d := (Z.log2 m + 1)%Z in
  if (d <=? 53)%Z then z
  else
    let k := (d - 53)%Z in
    let q := (m `div` 2 ^ k)%Z in
    let r := (m `mod` 2 ^ k)%Z in
    let half := (2 ^ (k - 1))%Z in
    let q' := if (r <? half)%Z then q
              else if (half <? r)%Z then (q + 1)%Z
              else if Z.even q then q else (q + 1)%Z in
    (Z.sgn z * (q' * 2 ^ k))%Z.

(** The lambda handed to [_coalesce_timestamps]:
    [abs((s-e)*sr) < min_silence_duration].  The sample indices [s] and [e]
    are int64 entries of the detector's array and [sr] is an integer that
    fits in int64, so the difference, the product and the absolute value wrap
    as int64; the comparison with the duration, a float, is made in binary64,
    the duration being read as the rational it denotes. *)
Definition silence_condition (sr : Z) (min_silence_duration : Q) (e s : Z)
  : bool :=
  Qltb (inject_Z (float64_of_int (int64_abs (int64_mul (int64_sub s e) sr))))
    min_silence_duration.

(** The default [min_silence_duration=0.3], as the binary64 value it is. *)
Definition default_min_silence_duration : Q :=
  Qmake 5404319552844595 18014398509481984.

Section Split.
Context {A : Type}.
Variable is_zero : A → bool.
(** [librosa.effects.split(audio, top_db=top_db)]: the external detector,
    returning (start, end) sample indices. *)
Variable librosa_effects_split : ndarray A → Z → list (Z * Z).

Definition split_on_silence (audio : ndarray A) (sr top_db : Z)
    (min_silence_duration : Q) : py (list (Z * Z)) :=
  librosa_input_wrap is_zero audio ≫= λ audio : ndarray A,
  let timestamps := librosa_effects_split audio top_db in
  match _coalesce_timestamps (silence_condition sr min_silence_duration)
          timestamps with
  | inl e => raise e
  | inr timestamps => mret timestamps
  end.
End Split.

(** ** core.py: zero padding and windowing *)

Section Windowing.
Context {A : Type}.
Variable zero : A.
Variable is_zero : A → bool.

(** [np.pad(audio, pad_width=((0, 0), (before, after)), mode='constant',
    constant_values=0)]: two pad pairs fit an array of rank 2 only. *)
Definition np_pad (audio : ndarray A) (before after : nat) : py (ndarray A) :=
  match audio with
  | Array2 rows =>
      mret (Array2 (map (λ r, replicate before zero ++ r ++ replicate after zero)
                      rows))
  | _ => raise ValueError
  end.

(** Lengths are non-negative Python ints; [%] by zero raises. *)
Definition zero_pad (audio : ndarray A) (required_len : nat) : py (ndarray A) :=
  _check_audio_types is_zero audio;;
  let num_frames := shape_neg audio 1 in
  let before := 0 in
  if required_len =? 0 then raise ZeroDivisionError else
  let after := required_len - num_frames `mod` required_len in
  if after =? required_len then mret audio else
  np_pad audio before after.

(** [int(np.ceil(a / b))] for positive [b] (exact below 2^53). *)
Definition ceil_div (a b : nat) : nat := (a + b - 1) `div` b.

(** [np.arange(0, stop, step)] for positive [step]. *)
Definition arange (stop step : nat) : list nat :=
  map (λ k, k * step) (seq 0 (ceil_div stop step)).

(** [np.array(audio[:, start_idx:end_idx])] with non-negative bounds. *)
Definition slice_samples (audio : ndarray A) (start_idx end_idx : nat)
  : py (ndarray A) :=
  match audio with
  | Array2 rows =>
      mret (Array2 (map (λ r, take (end_idx - start_idx) (drop start_idx r)) rows))
  | _ => raise IndexError
  end.

(** [np.stack(windows)] of rank-2 arrays: they must agree in shape, and
    there must be at least one. *)
Definition np_stack (windows : list (ndarray A)) : py (ndarray A) :=
  match windows with
  | [] => raise ValueError
  | w :: _ =>
      if forallb (λ w', bool_decide (shape w' = shape w)) windows
      then
        mret (Array3 (omap (λ w', match w' with
                                  | Array2 rows => Some rows
                                  | _ => None
                                  end) windows))
      else raise ValueError
  end.

(** The body of the [for start_idx in start_idxs] loop, appending to
    [windows]. *)
Fixpoint window_loop (audio : ndarray A) (window_len : nat)
    (start_idxs : list nat) (windows : list (ndarray A))
  : py (list (ndarray A)) :=
  match start_idxs with
  | [] => mret windows
  | start_idx :: start_idxs' =>
      let end_idx := start_idx + window_len in
      let end_idx := end_idx `min` len audio in
      slice_samples audio start_idx end_idx ≫= λ win : ndarray A,
      zero_pad win window_len ≫= λ win : ndarray A,
      window_loop audio window_len start_idxs' (windows ++ [win])
  end.

Definition window (audio : ndarray A) (window_len hop_len : nat)
  : py (ndarray A) :=
  _check_audio_types is_zero audio;;
  if window_len =? 0 then raise ZeroDivisionError else
  let n_chunks := ceil_div (len audio) window_len in
  if hop_len =? 0 then raise ZeroDivisionError else
  let start_idxs := arange (n_chunks * window_len) hop_len in
  window_loop audio window_len start_idxs [] ≫= λ windows,
  np_stack windows.
End Windowing.

(** ** core.py: downmix *)

Section Downmix.
Context {A : Type}.
Variable is_zero : A → bool.
(** The mean numpy takes of the samples of one time index, listed in
    channel order. *)
Variable mean : list A → A.

(** The samples at time index [j], one per channel. *)
Definition column (j : nat) (rows : list (list A)) : list A :=
  omap (λ r : list A, r !! j) rows.

(** [mean(axis=-2, keepdims=True)] on one (channels, samples) block. *)
Definition mean_channels (rows : list (list A)) : list (list A) :=
  [map (λ j, mean (column j rows)) (seq 0 (row_len rows))].

(** [audio.mean(axis=-2, keepdims=True)] *)
Definition np_mean_axis (audio : ndarray A) : py (ndarray A) :=
  match audio with
  | Array2 rows => mret (Array2 (mean_channels rows))
  | Array3 blocks => mret (Array3 (map mean_channels blocks))
  | _ => raise ValueError
  end.

Definition downmix (audio : ndarray A) : py (ndarray A) :=
  _check_audio_types is_zero audio;;
  np_mean_axis audio.
End Downmix.

(** ** io.py: writing audio files *)

(** [ok_audio_formats] *)
Definition ok_audio_formats : list string :=
  ["flac"; "ogg"; "wav"]%string.

Section Io.
Context {A : Type}.
(** [Path(path).suffix] as a function of the path string. *)
Variable path_suffix : string → string.
(** The error the [stat] behind [Path.exists()] raises on a path, if it
    raises one that [exists()] passes on (a name that is too long, a
    directory that may not be searched); a missing file is not one. *)
Variable stat_fails : string → option exn.

Definition _add_file_format_to_filename (path file_format : string) : string :=
  if bool_decide (path_suffix path ≠ file_format)
  then (path +:+ file_format)%string
  else path.

(** [np.reshape(audio, (audio.shape[1], audio.shape[0]))]: the samples in
    row-major order, cut into [shape[1]] rows of [shape[0]] entries. *)
Definition np_reshape_swap (audio : ndarray A) : ndarray A :=
  match audio with
  | Array2 rows =>
      let flat := concat rows in
      Array2 (map (λ k, take (length rows) (drop (k * length rows) flat))
                (seq 0 (row_len rows)))
  | _ => audio
  end.

(** [Path(path).exists()] on the files on disk. *)
Definition path_exists {V : Type} (fs : gmap string V) (path : string) : py bool :=
  match stat_fails path with
  | Some e => raise e
  | None => mret (bool_decide (is_Some (fs !! path)))
  end.

(** The files on disk, by path: what [sf.write] stored, and the rate. *)
Definition write_audio_file (fs : gmap string (ndarray A * Z))
    (audio : ndarray A) (path_to_audio : string) (sample_rate : Z)
    (audio_format : string) (exist_ok : bool)
  : gmap string (ndarray A * Z) * py () :=
  if negb (bool_decide (audio_format ∈ ok_audio_formats))
  then (fs, raise AssertionError)
  else
    let path_to_audio := _add_file_format_to_filename path_to_audio audio_format in
    match outcome (path_exists fs path_to_audio) with
    | inl e => (fs, raise e)
    | inr found =>
        if found && negb exist_ok
        then (fs, raise FileExistsError)
        else
          (* io.py neither defines nor imports [_check_audio_types]: the call
             is a lookup of an unbound global name. *)
          let checked : py () :=
            (raise NameError : py ());; py_assert (ndim audio =? 2) in
          match outcome checked with
          | inl _ => (fs, checked)
          | inr _ =>
              (<[path_to_audio := (np_reshape_swap audio, sample_rate)]> fs,
               checked)
          end
    end.
End Io.

(** [PurePosixPath(path).parts], root apart: the components between
    slashes, with empty ones and [.] dropped. *)
Fixpoint path_components (path cur : string) : list string :=
  match path with
  | EmptyString => [cur]
  | String c path' =>
      if Ascii.eqb c "/"%char
      then cur :: path_components path' EmptyString
      else path_components path' (cur +:+ String c EmptyString)
  end.

(** [Path(path).name] *)
Definition path_name (path : string) : string :=
  default EmptyString
    (last (filter (λ c, c ≠ EmptyString ∧ c ≠ "."%string)
             (path_components path EmptyString))).

(** [name[i:]] at [i = name.rfind('.')], when the name has a dot. *)
Fixpoint from_last_dot (name : string) : option string :=
  match name with
  | EmptyString => None
  | String c name' =>
      match from_last_dot name' with
      | Some t => Some t
      | None => if Ascii.eqb c "."%char then Some name else None
      end
  end.

(** [PurePath.suffix]: [name[i:]] when [0 < i < len(name) - 1], else the
    empty string. *)
Definition posix_suffix (path : string) : string :=
  let name := path_name path in
  match from_last_dot name with
  | Some t =>
      if (String.length t <? String.length name) && (1 <? String.length t)
      then t
      else EmptyString
  | None => EmptyString
  end.

(** ** core.py: the sample at a timestamp *)

(** The [timestamp] argument: a rank-1 array of integers (the docstring) or a
    tuple of integers (the annotation). *)
Inductive timestamp_arg : Set :=
| TimestampArray (ts : list Z)
| TimestampTuple (ts : list Z).

(** [timestamp * sr]: element by element on an int64 array, where the
    products wrap ([sr] fits in int64); repetition on a tuple (no copy at all
    when [sr] is not positive). *)
Definition timestamp_times (timestamp : timestamp_arg) (sr : Z) : list Z :=
  match timestamp with
  | TimestampArray ts => map (λ t, int64_mul t sr) ts
  | TimestampTuple ts => concat (replicate (Z.to_nat sr) ts)
  end.

(** An integer index into an axis of extent [n]: negative indices count
    from the end, anything outside [-n, n) is out of bounds. *)
Definition py_index (n : nat) (i : Z) : option nat :=
  if (0 <=? i)%Z
  then (if (i <? Z.of_nat n)%Z then Some (Z.to_nat i) else None)
  else (if (- Z.of_nat n <=? i)%Z then Some (Z.to_nat (i + Z.of_nat n)) else None).

Section Timestamp.
Context {A : Type}.
Variable is_zero : A → bool.

(** [audio[i, j]] with two integer indices: one element of a rank-2 array,
    one row of a rank-3 array, too many indices below rank 2. *)
Definition getitem2 (audio : ndarray A) (i j : Z) : py (ndarray A) :=
  match audio with
  | Array2 rows =>
      match py_index (length rows) i, py_index (row_len rows) j with
      | Some c, Some k =>
          from_option (λ x, mret (Array0 x)) (raise IndexError)
            (rows !! c ≫= (.!! k))
      | _, _ => raise IndexError
      end
  | Array3 blocks =>
      match py_index (length blocks) i, py_index (row_len blocks) j with
      | Some c, Some k =>
          from_option (λ r, mret (Array1 r)) (raise IndexError)
            (blocks !! c ≫= (.!! k))
      | _, _ => raise IndexError
      end
  | _ => raise IndexError
  end.

Definition get_audio_from_timestamp (audio : ndarray A) (sr : Z)
    (timestamp : timestamp_arg) : py (ndarray A) :=
  _check_audio_types is_zero audio;;
  let idxs := timestamp_times timestamp sr in
  match idxs !! 0, idxs !! 1 with
  | Some i, Some j => getitem2 audio i j
  | _, _ => raise IndexError
  end.
End Timestamp.

(** ** core.py: resampling *)

(** [np.expand_dims(audio, axis=-2)]; the axis does not exist at rank 0. *)
Definition np_expand_dims {A : Type} (audio : ndarray A) : py (ndarray A) :=
  match audio with
  | Array1 xs => mret (Array2 [xs])
  | Array2 rows => mret (Array3 (map (λ r, [r]) rows))
  | _ => raise ValueError
  end.

Section Resample.
Context {A : Type}.
Variable is_zero : A → bool.
(** [librosa.resample(audio, old_sr, new_sr)], the external resampler: on a
    rank-1 signal it gives a rank-1 signal, on a rank-2 buffer whatever array
    it gives; either call may raise. *)
Variable librosa_resample_1d : list A → Z → Z → py (list A).
Variable librosa_resample_2d : list (list A) → Z → Z → py (ndarray A).

Definition librosa_resample (audio : ndarray A) (old_sr new_sr : Z)
  : py (ndarray A) :=
  match audio with
  | Array1 xs => librosa_resample_1d xs old_sr new_sr ≫= λ ys, mret (Array1 ys)
  | Array2 rows => librosa_resample_2d rows old_sr new_sr
  | _ => raise ValueError
  end.

Definition resample (audio : ndarray A) (old_sr new_sr : Z) : py (ndarray A) :=
  _check_audio_types is_zero audio;;
  _is_mono is_zero audio ≫= λ mono : bool,
  if mono
  then
    getitem0 audio ≫= λ audio : ndarray A,
    librosa_resample audio old_sr new_sr ≫= λ audio : ndarray A,
    np_expand_dims audio
  else librosa_resample audio old_sr new_sr.
End Resample.

(** ** io.py: loading audio files *)

Section Load.
Context {A : Type}.
(** [librosa.load(path_to_audio, mono=True, sr=sample_rate)], the external
    decoder: the samples of the one channel and the rate, or an exception. *)
Variable librosa_load : string → Z → py (list A * Z).

Definition load_audio_file (path_to_audio : string) (sample_rate : Z)
  : py (ndarray A) :=
  librosa_load path_to_audio sample_rate ≫= λ loaded : list A * Z,
  let audio := Array1 loaded.1 in
  np_expand_dims audio.
End Load.

(** ** The window cut at one start offset *)

Section WindowAt.
Context {A : Type}.
Variable zero : A.

(** What one pass of the loop of [window] appends on a rank-2 buffer: the
    slice from [start_idx] to [min(start_idx + window_len, len(audio))], and
    zeros up to [window_len] unless the slice is empty. *)
Definition window_at (rows : list (list A)) (window_len start_idx : nat)
  : list (list A) :=
  let end_idx := (start_idx + window_len) `min` length rows in
  let n := (end_idx - start_idx) `min` (row_len rows - start_idx) in
  map (λ r, take (end_idx - start_idx) (drop start_idx r)
            ++ replicate (if n =? 0 then 0 else window_len - n) zero) rows.
End WindowAt.

(** ** Concrete samples for evaluating the model *)

(** Integer samples. *)
Definition is_zero_Z (z : Z) : bool := Z.eqb z 0.

(** The predicate that never merges. *)
Definition never_merge (e s : Z) : bool := false.

(** The samples 1, 2, ..., [n] on one channel. *)
Definition ramp (n : nat) : list Z := map Z.of_nat (seq 1 n).

(** "An exact, non-zero multiple of [L]". *)
Definition is_nonzero_multiple (N L : nat) : bool :=
  (0 <? N) && (N `mod` L =? 0).

(** "The gap is below [min_silence_duration * sr] samples". *)
Definition gap_below_duration (sr : Z) (min_silence_duration : Q) (e s : Z)
  : bool :=
  Qltb (inject_Z (s - e)) (min_silence_duration * inject_Z sr).

(** * Properties *)

(** ** The coalescing sweep *)

Section CoalesceFacts.
Context {T : Type}.
Variable condition : T → T → bool.
Implicit Types (timestamps : list (T * T)) (st : sweep_state T) (iv : T * T).

Lemma loop_body_in_bounds timestamps st i :
  i < length timestamps → ∃ st', loop_body condition timestamps st i = inr st'.
Proof.
  intros Hi. unfold loop_body.
  destruct (lookup_lt_is_Some_2 timestamps i Hi) as [[s e] ->].
  destruct (condition _ _); eauto.
Qed.

Lemma loop_body_past_end timestamps st :
  loop_body condition timestamps st (length timestamps) = inl IndexError.
Proof.
  unfold loop_body. by rewrite (lookup_ge_None_2 timestamps (length timestamps)).
Qed.

(** When the condition is false the appended interval ends at the end of
    the interval just read. *)
Lemma loop_body_else timestamps st i start_time end_time :
  timestamps !! i = Some (start_time, end_time) →
  condition (last_end_time st) start_time = false →
  loop_body condition timestamps st i =
    inr (SweepState start_time end_time
           (coalesced_timestamps st ++ [(last_start_time st, end_time)])).
Proof. intros Hi Hc. unfold loop_body. by rewrite Hi, Hc. Qed.

Lemma for_range_in_bounds timestamps idxs st :
  Forall (λ i, i < length timestamps) idxs →
  ∃ st', for_range condition timestamps idxs st = (st', None).
Proof.
  intros Hall. revert st.
  induction Hall as [|i idxs Hi _ IH]; intros st; simpl; [by eauto|].
  destruct (loop_body_in_bounds timestamps st i Hi) as [st' ->]. apply IH.
Qed.

Lemma for_range_app timestamps idxs1 idxs2 st :
  for_range condition timestamps (idxs1 ++ idxs2) st =
    match for_range condition timestamps idxs1 st with
    | (st', None) => for_range condition timestamps idxs2 st'
    | stopped => stopped
    end.
Proof.
  revert st. induction idxs1 as [|i idxs1 IH]; intros st; simpl; [done|].
  destruct (loop_body _ _ _ _); [done|]. apply IH.
Qed.

(** Every index below the length is read without error; the last index of
    the range is the length itself, and reading it raises. *)
Lemma sweep_stops_past_end iv rest seed :
  ∃ st,
    for_range condition (iv :: rest) (seq 1 (length rest))
      (SweepState seed.1 seed.2 []) = (st, None)
    ∧ sweep condition (iv :: rest) seed = (st, Some IndexError).
Proof.
  destruct (for_range_in_bounds (iv :: rest) (seq 1 (length rest))
              (SweepState seed.1 seed.2 [])) as [st Hst].
  { apply Forall_seq. intros i Hi. simpl. lia. }
  exists st. split; [done|].
  unfold sweep, sweep_range. cbn [length]. rewrite seq_S, for_range_app, Hst.
  cbn [for_range]. replace (1 + length rest) with (length (iv :: rest)) by done.
  by rewrite loop_body_past_end.
Qed.

Lemma coalesce_nonempty_raises iv rest :
  _coalesce_timestamps condition (iv :: rest) = inl IndexError.
Proof.
  unfold _coalesce_timestamps. cbn [lookup list_lookup].
  destruct (sweep_stops_past_end iv rest iv) as (st & _ & ->). done.
Qed.
End CoalesceFacts.

(** C1. With two intervals and a condition that is false on them, the sweep
    appends the interval from the first start to the end of the second
    interval, [(0, 6)], where the carried interval was [(0, 1)]; the loop then
    stops on the read past the end. *)
Theorem coalesce_emits_end_of_next_interval :
  sweep never_merge [(0, 1); (5, 6)]%Z (0, 1)%Z
  = (SweepState 5%Z 6%Z [(0, 6)%Z], Some IndexError).
Proof. reflexivity. Qed.

(** C2. On every non-empty list the sweep reads every index below the length
    without error and then reads index [len(timestamps)], which raises
    IndexError: the call never returns a list, and nothing is appended after
    the loop.  The empty list raises IndexError at [timestamps[0]]. *)
Theorem coalesce_reads_past_end {T : Type} (condition : T → T → bool)
    (iv : T * T) (rest : list (T * T)) :
  (iv :: rest) !! length (iv :: rest) = None
  ∧ (∃ st,
       for_range condition (iv :: rest) (seq 1 (length rest))
         (SweepState iv.1 iv.2 []) = (st, None)
       ∧ sweep condition (iv :: rest) iv = (st, Some IndexError))
  ∧ _coalesce_timestamps condition (iv :: rest) = inl IndexError
  ∧ _coalesce_timestamps condition [] = inl IndexError.
Proof.
  split; [by apply lookup_ge_None_2|].
  split; [apply sweep_stops_past_end|].
  split; [apply coalesce_nonempty_raises|done].
Qed.

(** C3. On a list of exactly one interval the call raises IndexError, whatever
    the condition: the single interval is not returned. *)
Theorem coalesce_single_interval_raises {T : Type} (condition : T → T → bool)
    (iv : T * T) :
  _coalesce_timestamps condition [iv] = inl IndexError.
Proof. apply coalesce_nonempty_raises. Qed.

(** ** The [py] monad *)

Lemma outcome_bind {X Y : Type} (m : py X) (f : X → py Y) :
  outcome (m ≫= f) =
    match outcome m with
    | inl e => inl e
    | inr x => outcome (f x)
    end.
Proof. unfold mbind, py_bind. by destruct (outcome m). Qed.

Lemma py_bind_ext {X Y : Type} (m : py X) (f g : X → py Y) :
  (∀ x, f x = g x) → m ≫= f = m ≫= g.
Proof. intros Hfg. unfold mbind, py_bind. destruct (outcome m); by rewrite ?Hfg. Qed.

(** A buffer of rank 2 passes the check: only warnings can come of it. *)
Lemma check_rank2 {A : Type} (is_zero : A → bool) (rows : list (list A)) :
  outcome (_check_audio_types is_zero (Array2 rows)) = inr ().
Proof.
  unfold _check_audio_types. rewrite !outcome_bind. cbn [ndim shape length].
  cbn [Nat.eqb py_assert outcome mret py_ret].
  destruct (_ <? _); cbn [outcome warn mret py_ret];
    by destruct (_is_zero _ _).
Qed.

Lemma has_shape_row_len {A : Type} (rows : list (list A)) (C N : nat) :
  has_shape rows C N → 1 ≤ C → row_len rows = N.
Proof.
  intros [HC HN] ?. destruct rows as [|r rows]; simpl in *; [lia|].
  by inversion HN.
Qed.

(** ** Zero padding *)

Section CeilDiv.
Implicit Types (N L : nat).

Lemma ceil_div_exact N L :
  1 ≤ L → N `mod` L = 0 → ceil_div N L * L = N.
Proof.
  intros HL Hr. unfold ceil_div.
  pose proof (Nat.div_mod N L ltac:(lia)) as HN. rewrite Hr in HN.
  assert ((N + L - 1) `div` L = N `div` L) as ->; [|lia].
  symmetry. apply (Nat.div_unique _ _ _ (L - 1)); lia.
Qed.

Lemma ceil_div_inexact N L :
  1 ≤ L → N `mod` L ≠ 0 → ceil_div N L * L = N + (L - N `mod` L).
Proof.
  intros HL Hr. unfold ceil_div.
  pose proof (Nat.div_mod N L ltac:(lia)) as HN.
  pose proof (Nat.mod_upper_bound N L ltac:(lia)) as Hlt.
  assert ((N + L - 1) `div` L = S (N `div` L)) as ->; [|lia].
  symmetry. apply (Nat.div_unique _ _ _ (N `mod` L - 1)); lia.
Qed.

(** [ceil_div N L * L] is the least multiple of [L] that is at least [N]. *)
Lemma ceil_div_least N L :
  1 ≤ L →
  N ≤ ceil_div N L * L ∧ ∀ k, N ≤ k * L → ceil_div N L * L ≤ k * L.
Proof.
  intros HL.
  pose proof (Nat.div_mod N L ltac:(lia)) as HN.
  pose proof (Nat.mod_upper_bound N L ltac:(lia)) as Hlt.
  destruct (decide (N `mod` L = 0)) as [Hr|Hr].
  - rewrite ceil_div_exact by done. split; [done|]. by intros k Hk.
  - rewrite ceil_div_inexact by done. split; [lia|]. intros k Hk.
    assert (N `div` L < k) by nia. nia.
Qed.
End CeilDiv.

Section PaddingFacts.
Context {A : Type}.
Variable zero : A.
Variable is_zero : A → bool.
Implicit Types (rows : list (list A)) (C N L : nat).

(** What [zero_pad] returns on a rank-2 buffer, by the remainder. *)
Lemma zero_pad_rank2 rows L :
  1 ≤ L →
  outcome (zero_pad zero is_zero (Array2 rows) L) =
    if decide (row_len rows `mod` L = 0)
    then inr (Array2 rows)
    else inr (Array2 (map (λ r, r ++ replicate (L - row_len rows `mod` L) zero)
                        rows)).
Proof.
  intros HL. unfold zero_pad. rewrite outcome_bind, check_rank2.
  destruct (Nat.eqb_spec L 0) as [|_]; [lia|].
  change (shape_neg (Array2 rows) 1) with (row_len rows).
  pose proof (Nat.mod_upper_bound (row_len rows) L ltac:(lia)).
  destruct (Nat.eqb_spec (L - row_len rows `mod` L) L) as [Heq|Hne];
    destruct (decide _) as [Hz|Hnz]; try lia; done.
Qed.

Lemma pad_rows_shape rows C N k :
  has_shape rows C N →
  has_shape (map (λ r, r ++ replicate k zero) rows) C (N + k).
Proof.
  intros [HC HN]. split; [by rewrite length_map|].
  apply Forall_map. eapply Forall_impl; [done|]. simpl.
  intros r Hr. by rewrite length_app, length_replicate, Hr.
Qed.

Lemma pad_rows_nil rows : map (λ r, r ++ replicate 0 zero) rows = rows.
Proof.
  induction rows as [|r rows IH]; [done|].
  cbn [map]. rewrite IH. simpl. by rewrite app_nil_r.
Qed.

Lemma pad_rows_changed rows C N k :
  has_shape rows C N → 1 ≤ C → 1 ≤ k →
  map (λ r, r ++ replicate k zero) rows ≠ rows.
Proof.
  intros [HC HN] ? ? Heq. destruct rows as [|r rows]; simpl in *; [lia|].
  injection Heq as Hr _. apply (f_equal length) in Hr.
  rewrite length_app, length_replicate in Hr. lia.
Qed.
End PaddingFacts.

(** X27. On a buffer with [C ≥ 1] channels of [N] samples and a positive
    [required_len = L], [zero_pad] appends zeros at the end of every channel,
    and only there; the padded length is the least multiple of [L] that is at
    least [N]; the samples are kept as a prefix; and the buffer comes back
    unchanged exactly when [N] is a multiple of [L], zero included. *)
Theorem zero_pad_pads_to_next_multiple {A : Type} (zero : A)
    (is_zero : A → bool) (rows : list (list A)) (C N L : nat) :
  has_shape rows C N → 1 ≤ C → 1 ≤ L →
  ∃ padded,
    outcome (zero_pad zero is_zero (Array2 rows) L) = inr (Array2 padded)
    ∧ padded = map (λ r, r ++ replicate (ceil_div N L * L - N) zero) rows
    ∧ has_shape padded C (ceil_div N L * L)
    ∧ (N ≤ ceil_div N L * L ∧ ∀ k, N ≤ k * L → ceil_div N L * L ≤ k * L)
    ∧ (padded = rows ↔ N `mod` L = 0).
Proof.
  intros Hshape HC HL.
  pose proof (has_shape_row_len rows C N Hshape HC) as HN.
  pose proof (ceil_div_least N L HL) as Hleast.
  exists (map (λ r, r ++ replicate (ceil_div N L * L - N) zero) rows).
  rewrite zero_pad_rank2, HN by done.
  destruct (decide (N `mod` L = 0)) as [Hr|Hr].
  - rewrite ceil_div_exact in * by done.
    rewrite Nat.sub_diag, pad_rows_nil. split_and!; try done; apply Hleast.
  - pose proof (Nat.mod_upper_bound N L ltac:(lia)).
    rewrite ceil_div_inexact in * by done.
    replace (N + (L - N `mod` L) - N) with (L - N `mod` L) by lia.
    split_and!; [done|done|by apply pad_rows_shape|lia|apply Hleast|].
    split; [|done]. intros Heq.
    by eapply pad_rows_changed in Heq; [|done|done|lia].
Qed.

Lemma zero_pad_pads_to_next_multiple_witness :
  ∃ padded,
    outcome (zero_pad 0%Z is_zero_Z (Array2 [[1; 2; 3]%Z]) 2) = inr (Array2 padded)
    ∧ padded = map (λ r, r ++ replicate (ceil_div 3 2 * 2 - 3) 0%Z) [[1; 2; 3]%Z]
    ∧ has_shape padded 1 (ceil_div 3 2 * 2)
    ∧ (3 ≤ ceil_div 3 2 * 2 ∧ ∀ k, 3 ≤ k * 2 → ceil_div 3 2 * 2 ≤ k * 2)
    ∧ (padded = [[1; 2; 3]%Z] ↔ 3 `mod` 2 = 0).
Proof.
  apply (zero_pad_pads_to_next_multiple 0%Z is_zero_Z [[1; 2; 3]%Z] 1 3 2).
  - split; [reflexivity|]. repeat constructor.
  - lia.
  - lia.
Defined.

(** C6. A buffer with one channel and no samples comes back from
    [zero_pad] as it is, of shape (1, 0), although its length, 0, is not a
    non-zero multiple of 48: the empty buffer is not padded. *)
Theorem zero_pad_empty_returned_unchanged :
  outcome (zero_pad 0%Z is_zero_Z (Array2 [[]]) 48) = inr (Array2 [[]])
  ∧ is_nonzero_multiple (shape_neg (Array2 [[]] : ndarray Z) 1) 48 = false.
Proof. split; reflexivity. Qed.

(** ** Windowing *)

(** C4. On one channel of three samples with [window_len = hop_len = 2] a
    single window comes back, holding the first sample and one zero: the
    samples at indices 1 and 2 are in no window.  With [hop_len = 1] the
    second window is empty, is left unpadded, and [np.stack] raises. *)
Theorem window_drops_trailing_samples :
  window 0%Z is_zero_Z (Array2 [[1; 2; 3]%Z]) 2 2
  = Py [] (inr (Array3 [[[1; 0]%Z]]))
  ∧ outcome (window 0%Z is_zero_Z (Array2 [[1; 2; 3]%Z]) 2 1) = inl ValueError.
Proof. split; reflexivity. Qed.

(** C5. On a buffer of shape (1, 100) with [window_len = hop_len = 48] the
    chunk count is taken from the channel count: [n_chunks = ceil(1/48) = 1],
    the only start offset is 0, and the only window holds sample 0 followed
    by 47 zeros. *)
Theorem window_example_one_chunk :
  len (Array2 [ramp 100]) = 1
  ∧ ceil_div (len (Array2 [ramp 100])) 48 = 1
  ∧ arange (1 * 48) 48 = [0]
  ∧ window 0%Z is_zero_Z (Array2 [ramp 100]) 48 48
    = Py [] (inr (Array3 [[1%Z :: replicate 47 0%Z]])).
Proof. repeat split; vm_compute; reflexivity. Qed.

(** ** Silence splitting *)

Lemma wrap64_small (z : Z) : (- 2 ^ 63 ≤ z < 2 ^ 63)%Z → wrap64 z = z.
Proof. intros Hz. unfold wrap64. rewrite Z.mod_small by lia. lia. Qed.

(** The conversion to binary64 keeps a positive integer positive. *)
Lemma float64_of_int_pos (z : Z) : (1 ≤ z)%Z → (1 ≤ float64_of_int z)%Z.
Proof.
  intros Hz. unfold float64_of_int. rewrite (Z.abs_eq z), Z.sgn_pos by lia.
  destruct (Z.leb_spec (Z.log2 z + 1) 53) as [|Hbits]; [done|].
  set (k := (Z.log2 z + 1 - 53)%Z).
  assert (0 < 2 ^ k)%Z as Hpow by (apply Z.pow_pos_nonneg; lia).
  assert (2 ^ k ≤ z)%Z as Hle.
  { etrans; [apply (Z.pow_le_mono_r 2 k (Z.log2 z)); lia|].
    apply Z.log2_spec. lia. }
  assert (1 ≤ z `div` 2 ^ k)%Z as Hq by (apply Z.div_le_lower_bound; lia).
  destruct (_ <? _)%Z; [nia|]. destruct (_ <? _)%Z; [nia|].
  destruct (Z.even _); nia.
Qed.

(** X4. While nothing overflows, the condition holds only for intervals
    that touch: with sample indices in the range of int64, a rate of at
    least 1, a product [|s - e| * sr] below 2^63 and a duration of at most
    one second, [abs((s-e)*sr) < min_silence_duration] implies [s = e]. *)
Lemma silence_condition_touching (sr : Z) (min_silence_duration : Q) (e s : Z) :
  (0 ≤ e < 2 ^ 63)%Z → (0 ≤ s < 2 ^ 63)%Z → (1 ≤ sr)%Z →
  (Z.abs (s - e) * sr < 2 ^ 63)%Z →
  (Qnum min_silence_duration ≤ Zpos (Qden min_silence_duration))%Z →
  silence_condition sr min_silence_duration e s = true → s = e.
Proof.
  intros He Hs Hsr Hfit Hd. unfold silence_condition, Qltb.
  unfold int64_abs, int64_mul, int64_sub.
  rewrite (wrap64_small (s - e)) by lia.
  rewrite (wrap64_small ((s - e) * sr)) by nia.
  rewrite (wrap64_small (Z.abs ((s - e) * sr))) by nia.
  cbn [inject_Z Qnum Qden]. intros Hlt%Z.ltb_lt.
  destruct (decide (s = e)) as [|Hne]; [done|exfalso].
  pose proof (float64_of_int_pos (Z.abs ((s - e) * sr)) ltac:(nia)). nia.
Qed.

Lemma silence_condition_touching_witness : (5 = 5)%Z.
Proof.
  apply (silence_condition_touching 48000 default_min_silence_duration 5 5).
  - lia.
  - lia.
  - lia.
  - cbn. lia.
  - unfold default_min_silence_duration. cbn [Qnum Qden]. lia.
  - reflexivity.
Defined.

(** C7. Two intervals one sample apart, at 48 kHz and the default duration:
    the gap, 1 sample, is far below [0.3 * 48000] samples, yet the condition
    compares [1 * 48000] with [0.3] and is false, and the sweep takes the
    branch that does not merge. *)
Theorem silence_condition_multiplies_gap_by_rate :
  gap_below_duration 48000 default_min_silence_duration 100 101 = true
  ∧ silence_condition 48000 default_min_silence_duration 100 101 = false
  ∧ sweep (silence_condition 48000 default_min_silence_duration)
      [(0, 100); (101, 200)]%Z (0, 100)%Z
    = (SweepState 101%Z 200%Z [(0, 200)%Z], Some IndexError).
Proof. repeat split; vm_compute; reflexivity. Qed.

(** ** Mono conversion *)

Lemma is_mono_rank2 {A : Type} (is_zero : A → bool) (rows : list (list A)) :
  outcome (_is_mono is_zero (Array2 rows)) = inr (length rows =? 1).
Proof. unfold _is_mono. by rewrite outcome_bind, check_rank2. Qed.

(** C9. On a buffer with two or more channels [librosa_input_wrap] raises
    nothing: it returns the buffer as it is, still of rank 2. *)
Theorem librosa_input_wrap_multichannel {A : Type} (is_zero : A → bool)
    (rows : list (list A)) (C N : nat) :
  has_shape rows C N → 2 ≤ C →
  outcome (librosa_input_wrap is_zero (Array2 rows)) = inr (Array2 rows).
Proof.
  intros [HC _] ?. unfold librosa_input_wrap.
  rewrite !outcome_bind, check_rank2, is_mono_rank2.
  destruct (Nat.eqb_spec (length rows) 1); [lia|done].
Qed.

Lemma librosa_input_wrap_multichannel_witness :
  outcome (librosa_input_wrap is_zero_Z (Array2 [[1; 2]; [3; 4]]%Z))
  = inr (Array2 [[1; 2]; [3; 4]]%Z).
Proof.
  apply (librosa_input_wrap_multichannel is_zero_Z [[1; 2]; [3; 4]]%Z 2 2).
  - split; [reflexivity|]. repeat constructor.
  - lia.
Defined.

(** C9, as first stated, fails on a stereo buffer: the call returns. *)
Lemma librosa_input_wrap_stereo_returns :
  librosa_input_wrap is_zero_Z (Array2 [[1; 2]; [3; 4]]%Z)
  = Py [] (inr (Array2 [[1; 2]; [3; 4]]%Z)).
Proof. reflexivity. Qed.

(** ** Writing audio files *)

Lemma from_last_dot_starts_with_dot (name t : string) :
  from_last_dot name = Some t → ∃ t', t = String "."%char t'.
Proof.
  induction name as [|c name IH]; simpl; [done|].
  destruct (from_last_dot name) as [t0|].
  - intros [= <-]. by apply IH.
  - destruct (Ascii.eqb_spec c "."%char) as [->|_]; [|done].
    intros [= <-]. eauto.
Qed.

(** A suffix is empty or starts with a dot. *)
Lemma posix_suffix_dot (path : string) :
  posix_suffix path = EmptyString
  ∨ ∃ t, posix_suffix path = String "."%char t.
Proof.
  unfold posix_suffix.
  destruct (from_last_dot (path_name path)) as [t|] eqn:Ht; [|by left].
  destruct (_ && _); [|by left].
  right. by eapply from_last_dot_starts_with_dot.
Qed.

Section IoFacts.
Context {A : Type}.
Variable path_suffix : string → string.
Hypothesis path_suffix_dot :
  ∀ p, path_suffix p = EmptyString ∨ ∃ t, path_suffix p = String "."%char t.

(** No suffix is one of the accepted format names. *)
Lemma suffix_is_no_format (path audio_format : string) :
  audio_format ∈ ok_audio_formats → path_suffix path ≠ audio_format.
Proof.
  intros Hin Heq. unfold ok_audio_formats in Hin.
  assert (∃ c t, audio_format = String c t ∧ c ≠ "."%char) as (c & t & -> & Hc).
  { repeat (apply elem_of_cons in Hin as [->|Hin]); [..|by apply elem_of_nil in Hin];
      by eexists _, _. }
  destruct (path_suffix_dot path) as [He|[t' Ht]]; congruence.
Qed.

Lemma add_file_format_appends (path audio_format : string) :
  audio_format ∈ ok_audio_formats →
  _add_file_format_to_filename path_suffix path audio_format
  = (path +:+ audio_format)%string.
Proof.
  intros Hin. unfold _add_file_format_to_filename.
  rewrite bool_decide_eq_true_2; [done|]. by apply suffix_is_no_format.
Qed.
End IoFacts.

(** X28. For every path and every accepted format, the destination that
    [write_audio_file] computes is the path with the bare format name appended,
    no dot between them, and that is the path whose existence it tests: when
    the test itself does not fail, the call raises FileExistsError exactly
    when a file is already there and [exist_ok] is false. *)
Theorem write_target_appends_bare_format {A : Type}
    (path_suffix : string → string) (path audio_format : string) :
  (∀ p, path_suffix p = EmptyString ∨ ∃ t, path_suffix p = String "."%char t) →
  audio_format ∈ ok_audio_formats →
  _add_file_format_to_filename path_suffix path audio_format
  = (path +:+ audio_format)%string
  ∧ ∀ (stat_fails : string → option exn) (fs : gmap string (ndarray A * Z))
      (audio : ndarray A) (sample_rate : Z) (exist_ok : bool),
      stat_fails (path +:+ audio_format)%string = None →
      outcome (write_audio_file path_suffix stat_fails fs audio path sample_rate
                 audio_format exist_ok).2 = inl FileExistsError
      ↔ is_Some (fs !! (path +:+ audio_format)%string) ∧ exist_ok = false.
Proof.
  intros Hdot Hin. split; [by apply add_file_format_appends|].
  intros stat_fails fs audio sample_rate exist_ok Hstat.
  unfold write_audio_file, path_exists.
  rewrite (bool_decide_eq_true_2 _ Hin), add_file_format_appends, Hstat by done.
  cbn [negb outcome mret py_ret].
  destruct exist_ok; cbn [negb]; rewrite ?andb_false_r, ?andb_true_r.
  - cbn. split; [done|]. by intros [_ ?].
  - case_bool_decide as Hex; cbn; split; try done.
    by intros [? _].
Qed.

Lemma write_target_appends_bare_format_witness :
  _add_file_format_to_filename posix_suffix "out.flac" "flac"
  = ("out.flac" +:+ "flac")%string
  ∧ ∀ (stat_fails : string → option exn) (fs : gmap string (ndarray Z * Z))
      (audio : ndarray Z) (sample_rate : Z) (exist_ok : bool),
      stat_fails ("out.flac" +:+ "flac")%string = None →
      outcome (write_audio_file posix_suffix stat_fails fs audio "out.flac"
                 sample_rate "flac" exist_ok).2 = inl FileExistsError
      ↔ is_Some (fs !! ("out.flac" +:+ "flac")%string) ∧ exist_ok = false.
Proof.
  apply (write_target_appends_bare_format posix_suffix "out.flac" "flac").
  - apply posix_suffix_dot.
  - unfold ok_audio_formats. apply elem_of_cons. by left.
Defined.

(** C10. On an empty directory, with nothing in the way of the existence
    test, the call for [out.flac] in format [flac] computes the destination
    [out.flacflac] and then stops at the unbound name [_check_audio_types]:
    it raises NameError and no file is written, there or anywhere. *)
Theorem write_audio_file_writes_nothing :
  _add_file_format_to_filename posix_suffix "out.flac" "flac" = "out.flacflac"%string
  ∧ write_audio_file posix_suffix (λ _, None) ∅ (Array2 [[1; 2; 3]%Z]) "out.flac"
      48000 "flac" false
    = (∅, Py [] (inl NameError)).
Proof. split; reflexivity. Qed.

(** ** Further properties of the sweep and of the windows *)

(** X1. The sweep raises IndexError on every input, empty or not. *)
Theorem coalesce_always_raises {T : Type} (condition : T → T → bool)
    (timestamps : list (T * T)) :
  _coalesce_timestamps condition timestamps = inl IndexError.
Proof.
  destruct timestamps as [|iv rest]; [done|]. apply coalesce_nonempty_raises.
Qed.

Section WindowFacts.
Context {A : Type}.
Variable zero : A.
Variable is_zero : A → bool.
Implicit Types (rows : list (list A)) (r : list A).

(** A slice that ends at or before column [C] reads the first [C] columns. *)
Lemma slice_of_leading_columns r C start_idx end_idx :
  end_idx ≤ C →
  take (end_idx - start_idx) (drop start_idx (take C r))
  = take (end_idx - start_idx) (drop start_idx r).
Proof.
  intros He. destruct (decide (end_idx ≤ start_idx)) as [Hle|Hgt].
  { replace (end_idx - start_idx) with 0 by lia. done. }
  replace C with (start_idx + (C - start_idx)) at 1 by lia.
  rewrite <- take_drop_commute, take_take. f_equal. lia.
Qed.

Lemma len_leading_columns rows :
  len (Array2 (map (take (length rows)) rows)) = len (Array2 rows).
Proof. unfold len. cbn [shape head default]. by rewrite length_map. Qed.

Lemma slice_samples_leading_columns rows start_idx end_idx :
  end_idx ≤ len (Array2 rows) →
  slice_samples (Array2 (map (take (length rows)) rows)) start_idx end_idx
  = slice_samples (Array2 rows) start_idx end_idx.
Proof.
  intros He. cbn [slice_samples]. do 2 f_equal. rewrite <- list_fmap_compose.
  apply list_fmap_ext. intros _ r _. simpl.
  by apply slice_of_leading_columns.
Qed.

Lemma window_loop_leading_columns rows window_len start_idxs windows :
  window_loop zero is_zero (Array2 (map (take (length rows)) rows)) window_len
    start_idxs windows
  = window_loop zero is_zero (Array2 rows) window_len start_idxs windows.
Proof.
  revert windows. induction start_idxs as [|start_idx start_idxs IH];
    intros windows; [done|].
  cbn [window_loop]. rewrite len_leading_columns.
  rewrite slice_samples_leading_columns by apply Nat.le_min_r.
  apply py_bind_ext. intros win. apply py_bind_ext. intros win'. apply IH.
Qed.

(** X3. The windows are cut from the first [len(audio)] samples of each channel,
    the channel count: later samples never reach the result. *)
Theorem window_reads_leading_columns rows window_len hop_len :
  outcome (window zero is_zero (Array2 rows) window_len hop_len)
  = outcome (window zero is_zero (Array2 (map (take (length rows)) rows))
               window_len hop_len).
Proof.
  unfold window. rewrite !outcome_bind, !check_rank2.
  rewrite len_leading_columns.
  destruct (window_len =? 0); [done|]. destruct (hop_len =? 0); [done|].
  by rewrite !outcome_bind, window_loop_leading_columns.
Qed.
End WindowFacts.

(** * Properties of the remaining functions *)

(** ** The rank check *)

Lemma check_fails {A : Type} (is_zero : A → bool) (audio : ndarray A) :
  ndim audio ≠ 2 → _check_audio_types is_zero audio = Py [] (inl AssertionError).
Proof.
  intros Hrank. unfold _check_audio_types.
  by destruct (Nat.eqb_spec (ndim audio) 2).
Qed.

(** X5. Every function that starts with the check rejects an array whose
    rank is not 2 with AssertionError, before any warning and before any
    other work. *)
Theorem rank_guard_raises_AssertionError {A : Type} (zero : A)
    (is_zero : A → bool) (mean : list A → A)
    (resample_1d : list A → Z → Z → py (list A))
    (resample_2d : list (list A) → Z → Z → py (ndarray A))
    (audio : ndarray A) :
  ndim audio ≠ 2 →
  _is_mono is_zero audio = Py [] (inl AssertionError)
  ∧ librosa_input_wrap is_zero audio = Py [] (inl AssertionError)
  ∧ (∀ required_len,
       zero_pad zero is_zero audio required_len = Py [] (inl AssertionError))
  ∧ (∀ window_len hop_len,
       window zero is_zero audio window_len hop_len = Py [] (inl AssertionError))
  ∧ downmix is_zero mean audio = Py [] (inl AssertionError)
  ∧ (∀ old_sr new_sr,
       resample is_zero resample_1d resample_2d audio old_sr new_sr
       = Py [] (inl AssertionError))
  ∧ (∀ sr timestamp,
       get_audio_from_timestamp is_zero audio sr timestamp
       = Py [] (inl AssertionError)).
Proof.
  intros Hrank. pose proof (check_fails is_zero audio Hrank) as Hcheck.
  unfold _is_mono, librosa_input_wrap, zero_pad, window, downmix, resample,
    get_audio_from_timestamp.
  rewrite Hcheck. by split_and!.
Qed.

Lemma rank_guard_raises_AssertionError_witness :
  _is_mono is_zero_Z (Array1 [1; 2; 3]%Z) = Py [] (inl AssertionError)
  ∧ librosa_input_wrap is_zero_Z (Array1 [1; 2; 3]%Z) = Py [] (inl AssertionError)
  ∧ (∀ required_len,
       zero_pad 0%Z is_zero_Z (Array1 [1; 2; 3]%Z) required_len
       = Py [] (inl AssertionError))
  ∧ (∀ window_len hop_len,
       window 0%Z is_zero_Z (Array1 [1; 2; 3]%Z) window_len hop_len
       = Py [] (inl AssertionError))
  ∧ downmix is_zero_Z (foldr Z.add 0%Z) (Array1 [1; 2; 3]%Z)
    = Py [] (inl AssertionError)
  ∧ (∀ old_sr new_sr,
       resample is_zero_Z (λ xs _ _, mret xs) (λ rows _ _, mret (Array2 rows))
         (Array1 [1; 2; 3]%Z) old_sr new_sr
       = Py [] (inl AssertionError))
  ∧ (∀ sr timestamp,
       get_audio_from_timestamp is_zero_Z (Array1 [1; 2; 3]%Z) sr timestamp
       = Py [] (inl AssertionError)).
Proof.
  apply (rank_guard_raises_AssertionError 0%Z is_zero_Z (foldr Z.add 0%Z)
           (λ xs _ _, mret xs) (λ rows _ _, mret (Array2 rows))
           (Array1 [1; 2; 3]%Z)).
  cbn. lia.
Defined.

(** X6. A buffer with channels but no samples passes the check with both
    warnings: it counts as transposed, and as all zeros. *)
Theorem check_empty_buffer_warns {A : Type} (is_zero : A → bool)
    (rows : list (list A)) (C : nat) :
  has_shape rows C 0 → 1 ≤ C →
  _check_audio_types is_zero (Array2 rows)
  = Py [ShapeWarning C 0; ZerosWarning] (inr ()).
Proof.
  intros Hshape HC.
  pose proof (has_shape_row_len rows C 0 Hshape HC) as HN.
  destruct Hshape as [Hlen Hrows].
  assert (forallb (forallb is_zero) rows = true) as Hz.
  { apply forallb_forall. intros r Hr%list_elem_of_In.
    rewrite Forall_forall in Hrows.
    by rewrite (nil_length_inv r (Hrows r Hr)). }
  unfold _check_audio_types. cbn [ndim shape length Nat.eqb py_assert].
  change (shape_neg (Array2 rows) 1) with (row_len rows).
  change (shape_neg (Array2 rows) 2) with (length rows).
  rewrite HN, Hlen. cbn [_is_zero]. rewrite Hz.
  destruct (Nat.ltb_spec 0 C); [done|lia].
Qed.

Lemma check_empty_buffer_warns_witness :
  _check_audio_types is_zero_Z (Array2 [[]; []])
  = Py [ShapeWarning 2 0; ZerosWarning] (inr ()).
Proof.
  apply (check_empty_buffer_warns is_zero_Z [[]; []] 2).
  - split; [reflexivity|]. repeat constructor.
  - lia.
Defined.

(** ** The librosa wrappers *)

Section WrapFacts.
Context {A : Type}.
Variable is_zero : A → bool.

(** What the input wrap returns on a rank-2 buffer, and what it warns. *)
Lemma librosa_input_wrap_rank2 (rows : list (list A)) :
  librosa_input_wrap is_zero (Array2 rows)
  = Py (warnings (_check_audio_types is_zero (Array2 rows))
        ++ warnings (_check_audio_types is_zero (Array2 rows)))
       (inr match rows with
            | [xs] => Array1 xs
            | _ => Array2 rows
            end).
Proof.
  pose proof (check_rank2 is_zero rows) as Hcheck.
  unfold librosa_input_wrap, _is_mono.
  destruct (_check_audio_types is_zero (Array2 rows)) as [w [e|[]]];
    simpl in Hcheck; [done|].
  unfold mbind, py_bind. cbn [outcome warnings mret py_ret].
  change (shape_neg (Array2 rows) 2) with (length rows).
  destruct rows as [|xs [|ys rows]]; cbn; by rewrite ?app_nil_r.
Qed.
End WrapFacts.

(** X7. Round trip from a buffer: on every rank-2 buffer the input wrap
    returns, and the output wrap of what it returns is the buffer again. *)
Theorem librosa_wrap_round_trip {A : Type} (is_zero : A → bool)
    (rows : list (list A)) :
  ∃ wrapped,
    outcome (librosa_input_wrap is_zero (Array2 rows)) = inr wrapped
    ∧ librosa_output_wrap wrapped = Array2 rows.
Proof.
  rewrite librosa_input_wrap_rank2. eexists. split; [reflexivity|].
  by destruct rows as [|xs [|ys rows]].
Qed.

(** X8. Round trip from a signal: the output wrap of a rank-1 signal is a
    one-channel buffer, and the input wrap of that buffer is the signal. *)
Theorem librosa_unwrap_round_trip {A : Type} (is_zero : A → bool)
    (xs : list A) :
  librosa_output_wrap (Array1 xs) = Array2 [xs]
  ∧ outcome (librosa_input_wrap is_zero (librosa_output_wrap (Array1 xs)))
    = inr (Array1 xs).
Proof. split; [done|]. cbn [librosa_output_wrap]. by rewrite librosa_input_wrap_rank2. Qed.

(** X9. The input wrap runs the check twice, once itself and once through
    [_is_mono]: every warning of the check is raised twice per call. *)
Theorem librosa_input_wrap_warns_twice {A : Type} (is_zero : A → bool)
    (rows : list (list A)) :
  warnings (librosa_input_wrap is_zero (Array2 rows))
  = warnings (_check_audio_types is_zero (Array2 rows))
    ++ warnings (_check_audio_types is_zero (Array2 rows)).
Proof. by rewrite librosa_input_wrap_rank2. Qed.

(** ** Zero padding, again *)

(** X10. Padding is idempotent: on a buffer with at least one channel and a
    positive [required_len], padding what [zero_pad] returned changes
    nothing. *)
Theorem zero_pad_idempotent {A : Type} (zero : A) (is_zero : A → bool)
    (rows : list (list A)) (C N L : nat) :
  has_shape rows C N → 1 ≤ C → 1 ≤ L →
  ∃ padded,
    outcome (zero_pad zero is_zero (Array2 rows) L) = inr (Array2 padded)
    ∧ outcome (zero_pad zero is_zero (Array2 padded) L) = inr (Array2 padded).
Proof.
  intros Hshape HC HL.
  pose proof (has_shape_row_len rows C N Hshape HC) as HN.
  rewrite zero_pad_rank2, HN by done.
  destruct (decide (N `mod` L = 0)) as [Hr|Hr].
  - exists rows. split; [done|]. rewrite zero_pad_rank2, HN by done.
    by rewrite decide_True.
  - eexists. split; [reflexivity|].
    pose proof (pad_rows_shape zero rows C N (L - N `mod` L) Hshape) as Hpad.
    rewrite zero_pad_rank2 by done.
    rewrite (has_shape_row_len _ C _ Hpad HC).
    rewrite decide_True; [done|].
    rewrite <- ceil_div_inexact by done. apply Nat.Div0.mod_mul.
Qed.

Lemma zero_pad_idempotent_witness :
  ∃ padded,
    outcome (zero_pad 0%Z is_zero_Z (Array2 [[1; 2; 3]%Z]) 2) = inr (Array2 padded)
    ∧ outcome (zero_pad 0%Z is_zero_Z (Array2 padded) 2) = inr (Array2 padded).
Proof.
  apply (zero_pad_idempotent 0%Z is_zero_Z [[1; 2; 3]%Z] 1 3 2).
  - split; [reflexivity|]. repeat constructor.
  - lia.
  - lia.
Defined.

(** X11. A zero length divides by zero: on every rank-2 buffer [zero_pad]
    with [required_len = 0] and [window] with [window_len = 0] raise
    ZeroDivisionError. *)
Theorem zero_length_raises_ZeroDivisionError {A : Type} (zero : A)
    (is_zero : A → bool) (rows : list (list A)) (hop_len : nat) :
  outcome (zero_pad zero is_zero (Array2 rows) 0) = inl ZeroDivisionError
  ∧ outcome (window zero is_zero (Array2 rows) 0 hop_len) = inl ZeroDivisionError.
Proof.
  unfold zero_pad, window. by rewrite !outcome_bind, !check_rank2.
Qed.

(** ** What [window] computes *)

Section CeilDivFacts.
Implicit Types (a b : nat).

Lemma ceil_div_one a b : 1 ≤ a → a ≤ b → ceil_div a b = 1.
Proof.
  intros Ha Hab. unfold ceil_div. symmetry.
  apply (Nat.div_unique _ _ _ (a - 1)); lia.
Qed.

Lemma ceil_div_pos a b : 1 ≤ a → 1 ≤ b → 1 ≤ ceil_div a b.
Proof.
  intros Ha Hb. pose proof (ceil_div_least a b Hb) as [Hle _].
  destruct (ceil_div a b); lia.
Qed.

Lemma ceil_div_two a b : 1 ≤ b → b < a → 2 ≤ ceil_div a b.
Proof.
  intros Hb Hab. pose proof (ceil_div_least a b Hb) as [Hle _].
  destruct (ceil_div a b) as [|[|n]]; lia.
Qed.

(** The start offsets begin at 0. *)
Lemma arange_head stop step :
  1 ≤ stop → 1 ≤ step →
  ∃ starts, arange stop step = 0 :: starts.
Proof.
  intros Hstop Hstep. unfold arange.
  pose proof (ceil_div_pos stop step Hstop Hstep).
  destruct (ceil_div stop step) as [|n]; [lia|]. simpl. eauto.
Qed.

Lemma arange_single stop step : 1 ≤ stop → stop ≤ step → arange stop step = [0].
Proof. intros. unfold arange. by rewrite ceil_div_one. Qed.

(** With a step below the extent, the second start offset is the step. *)
Lemma arange_second stop step :
  1 ≤ step → step < stop →
  ∃ starts, arange stop step = 0 :: step :: starts.
Proof.
  intros Hstep Hlt. unfold arange.
  pose proof (ceil_div_two stop step Hstep Hlt).
  destruct (ceil_div stop step) as [|[|n]]; [lia..|].
  simpl. rewrite Nat.add_0_r. eauto.
Qed.
End CeilDivFacts.

Section WindowOutcome.
Context {A : Type}.
Variable zero : A.
Variable is_zero : A → bool.
Implicit Types (rows : list (list A)) (C N : nat).

(** The number of samples the slice at [start_idx] holds. *)
Lemma slice_shape rows C N start_idx end_idx :
  has_shape rows C N →
  has_shape (map (λ r, take (end_idx - start_idx) (drop start_idx r)) rows) C
    ((end_idx - start_idx) `min` (N - start_idx)).
Proof.
  intros [HC HN]. split; [by rewrite length_map|].
  apply Forall_map. eapply Forall_impl; [done|]. simpl. intros r Hr.
  by rewrite length_take, length_drop, Hr.
Qed.

(** The window at an offset is its slice with the padding appended. *)
Lemma window_at_padded_slice rows window_len start_idx :
  window_at zero rows window_len start_idx
  = map (λ r, r ++ replicate
                (if ((start_idx + window_len) `min` length rows - start_idx)
                      `min` (row_len rows - start_idx) =? 0
                 then 0
                 else window_len
                      - ((start_idx + window_len) `min` length rows - start_idx)
                          `min` (row_len rows - start_idx)) zero)
      (map (λ r, take ((start_idx + window_len) `min` length rows - start_idx)
                   (drop start_idx r)) rows).
Proof. unfold window_at. by rewrite map_map. Qed.

(** One pass of the loop: slice, then pad. *)
Lemma zero_pad_slice rows C N window_len start_idx :
  has_shape rows C N → 1 ≤ C → 1 ≤ window_len →
  outcome (zero_pad zero is_zero
             (Array2 (map (λ r, take ((start_idx + window_len) `min` length rows
                                      - start_idx)
                                  (drop start_idx r)) rows)) window_len)
  = inr (Array2 (window_at zero rows window_len start_idx)).
Proof.
  intros Hshape HC Hwl.
  pose proof (slice_shape rows C N start_idx
                ((start_idx + window_len) `min` length rows) Hshape) as Hslice.
  pose proof (has_shape_row_len _ _ _ Hslice HC) as Hlen.
  pose proof (has_shape_row_len _ _ _ Hshape HC) as HN.
  rewrite zero_pad_rank2, Hlen, window_at_padded_slice, HN by done.
  set (n := ((start_idx + window_len) `min` length rows - start_idx)
              `min` (N - start_idx)).
  assert (n ≤ window_len) as Hn by lia.
  destruct (decide (n `mod` window_len = 0)) as [Hr|Hr].
  - assert ((if n =? 0 then 0 else window_len - n) = 0) as ->.
    { destruct (Nat.eqb_spec n 0); [done|].
      destruct (decide (n = window_len)) as [->|]; [lia|].
      rewrite Nat.mod_small in Hr by lia. lia. }
    by rewrite pad_rows_nil.
  - assert ((if n =? 0 then 0 else window_len - n) = window_len - n `mod` window_len)
      as ->; [|done].
    destruct (Nat.eqb_spec n 0) as [->|]; [by rewrite Nat.Div0.mod_0_l in Hr|].
    destruct (decide (n = window_len)) as [->|];
      [by rewrite Nat.Div0.mod_same in Hr|].
    by rewrite Nat.mod_small by lia.
Qed.
(** The loop itself never raises on a rank-2 buffer: it appends one window
    per start offset. *)
Lemma window_loop_rank2 rows C N window_len start_idxs windows :
  has_shape rows C N → 1 ≤ C → 1 ≤ window_len →
  outcome (window_loop zero is_zero (Array2 rows) window_len start_idxs windows)
  = inr (windows
         ++ map (λ s, Array2 (window_at zero rows window_len s)) start_idxs).
Proof.
  intros Hshape HC Hwl. revert windows.
  induction start_idxs as [|start_idx start_idxs IH]; intros windows.
  { cbn. by rewrite app_nil_r. }
  cbn [window_loop]. change (len (Array2 rows)) with (length rows).
  cbn [slice_samples]. rewrite outcome_bind. cbn [outcome mret py_ret].
  rewrite outcome_bind, (zero_pad_slice rows C N) by done.
  rewrite IH. cbn [map]. by rewrite <- app_assoc.
Qed.

Lemma take_min_length (k : nat) (l : list A) :
  take k l = take (k `min` length l) l.
Proof.
  destruct (decide (k ≤ length l)) as [Hle|Hgt].
  - by rewrite Nat.min_l.
  - rewrite Nat.min_r by lia. by rewrite !take_ge by lia.
Qed.

(** A window whose start offset lies inside both the channel count and the
    sample count holds real samples and has the full length. *)
Lemma window_at_in_range rows C N window_len start_idx :
  has_shape rows C N → 1 ≤ window_len → start_idx < C `min` N →
  window_at zero rows window_len start_idx
  = map (λ r, take (window_len `min` (C `min` N - start_idx)) (drop start_idx r)
              ++ replicate (window_len
                            - window_len `min` (C `min` N - start_idx)) zero)
      rows
  ∧ has_shape (window_at zero rows window_len start_idx) C window_len.
Proof.
  intros Hshape Hwl Hs.
  assert (1 ≤ C) as HC by lia.
  pose proof (has_shape_row_len _ _ _ Hshape HC) as HN.
  destruct Hshape as [HC' Hrows].
  assert (window_at zero rows window_len start_idx
          = map (λ r, take (window_len `min` (C `min` N - start_idx))
                        (drop start_idx r)
                      ++ replicate (window_len
                                    - window_len `min` (C `min` N - start_idx))
                           zero) rows) as Heq.
  { unfold window_at. rewrite HC', HN.
    apply Forall_fmap_ext_1. eapply Forall_impl; [done|]. simpl. intros r Hr.
    rewrite (take_min_length (_ - _)), length_drop, Hr.
    replace (((start_idx + window_len) `min` C - start_idx) `min` (N - start_idx))
      with (window_len `min` (C `min` N - start_idx)) by lia.
    destruct (Nat.eqb_spec (window_len `min` (C `min` N - start_idx)) 0);
      [lia|done]. }
  split; [done|]. rewrite Heq. split; [by rewrite length_map|].
  apply Forall_map. eapply Forall_impl; [done|]. simpl. intros r Hr.
  rewrite length_app, length_take, length_drop, length_replicate, Hr. lia.
Qed.

(** A window whose start offset lies past the channel count or the sample
    count is empty, and stays unpadded. *)
Lemma window_at_out_of_range rows C N window_len start_idx :
  has_shape rows C N → 1 ≤ C → C `min` N ≤ start_idx →
  has_shape (window_at zero rows window_len start_idx) C 0.
Proof.
  intros Hshape HC Hs.
  pose proof (has_shape_row_len _ _ _ Hshape HC) as HN.
  destruct Hshape as [HC' Hrows]. unfold window_at. rewrite HC', HN.
  split; [by rewrite length_map|].
  apply Forall_map. eapply Forall_impl; [done|]. simpl. intros r Hr.
  replace (((start_idx + window_len) `min` C - start_idx) `min` (N - start_idx))
    with 0 by lia.
  rewrite length_app, length_take, length_drop, Hr. simpl. lia.
Qed.

Lemma window_at_shape rows C N window_len start_idx :
  has_shape rows C N → 1 ≤ C → 1 ≤ window_len →
  shape (Array2 (window_at zero rows window_len start_idx))
  = [C; if start_idx <? C `min` N then window_len else 0].
Proof.
  intros Hshape HC Hwl. cbn [shape].
  destruct (Nat.ltb_spec start_idx (C `min` N)) as [Hin|Hout].
  - destruct (window_at_in_range rows C N window_len start_idx) as [_ Hw];
      [done..|].
    rewrite (has_shape_row_len _ _ _ Hw HC). by destruct Hw as [-> _].
  - pose proof (window_at_out_of_range rows C N window_len start_idx
                  Hshape HC Hout) as Hw.
    rewrite (has_shape_row_len _ _ _ Hw HC). by destruct Hw as [-> _].
Qed.

(** Stacking: the windows agree in shape exactly when every start offset is
    in range. *)
Lemma np_stack_windows rows C N window_len start_idxs :
  has_shape rows C N → 1 ≤ C → 1 ≤ N → 1 ≤ window_len →
  outcome (np_stack (map (λ s, Array2 (window_at zero rows window_len s))
                       (0 :: start_idxs)))
  = if forallb (λ s, s <? C `min` N) (0 :: start_idxs)
    then inr (Array3 (map (window_at zero rows window_len) (0 :: start_idxs)))
    else inl ValueError.
Proof.
  intros Hshape HC HN Hwl.
  assert (∀ l,
    forallb (λ w', bool_decide
               (shape w' = shape (Array2 (window_at zero rows window_len 0))))
      (map (λ s, Array2 (window_at zero rows window_len s)) l)
    = forallb (λ s, s <? C `min` N) l) as Hall.
  { intros l. induction l as [|s l IH]; [done|]. cbn [map forallb].
    rewrite IH. f_equal. rewrite !(window_at_shape rows C N) by done.
    destruct (Nat.ltb_spec 0 (C `min` N)); [|lia].
    destruct (Nat.ltb_spec s (C `min` N)).
    - by rewrite bool_decide_eq_true_2.
    - rewrite bool_decide_eq_false_2; [done|]. intros [=]. lia. }
  assert (∀ l,
    omap (λ w' : ndarray A, match w' with
                            | Array2 rows' => Some rows'
                            | _ => None
                            end)
      (map (λ s, Array2 (window_at zero rows window_len s)) l)
    = map (window_at zero rows window_len) l) as Hrows.
  { intros l. induction l as [|s l IH]; [done|]. cbn. by rewrite <- IH. }
  rewrite <- (Hall (0 :: start_idxs)), <- (Hrows (0 :: start_idxs)).
  unfold np_stack. cbn [map]. by destruct (forallb _ _).
Qed.

(** The outcome of [window] on a buffer with samples. *)
Lemma window_outcome rows C N window_len hop_len :
  has_shape rows C N → 1 ≤ C → 1 ≤ N → 1 ≤ window_len → 1 ≤ hop_len →
  outcome (window zero is_zero (Array2 rows) window_len hop_len)
  = if forallb (λ s, s <? C `min` N)
         (arange (ceil_div C window_len * window_len) hop_len)
    then inr (Array3 (map (window_at zero rows window_len)
                        (arange (ceil_div C window_len * window_len) hop_len)))
    else inl ValueError.
Proof.
  intros Hshape HC HN Hwl Hhop. unfold window.
  rewrite outcome_bind, check_rank2.
  destruct (Nat.eqb_spec window_len 0); [lia|].
  destruct (Nat.eqb_spec hop_len 0); [lia|].
  change (len (Array2 rows)) with (length rows).
  destruct Hshape as [HC' Hrows]. rewrite HC'.
  rewrite outcome_bind, (window_loop_rank2 rows C N) by done.
  cbn [app].
  pose proof (ceil_div_pos C window_len HC Hwl).
  destruct (arange_head (ceil_div C window_len * window_len) hop_len)
    as [starts ->]; [nia|done|].
  by apply np_stack_windows.
Qed.

(** One channel with at least one sample, cut once. *)
Lemma window_mono_single x xs window_len hop_len :
  1 ≤ window_len → window_len ≤ hop_len →
  outcome (window zero is_zero (Array2 [x :: xs]) window_len hop_len)
  = inr (Array3 [[x :: replicate (window_len - 1) zero]]).
Proof.
  intros Hwl Hhop.
  rewrite (window_outcome [x :: xs] 1 (S (length xs)));
    [|by repeat constructor|lia..].
  rewrite ceil_div_one, Nat.mul_1_l, arange_single by lia.
  cbn [forallb map]. unfold window_at. cbn [length row_len].
  replace ((0 + window_len) `min` 1 - 0) with 1 by lia.
  replace (1 `min` (S (length xs) - 0)) with 1 by lia.
  done.
Qed.

(** One channel with at least one sample, cut with overlap. *)
Lemma window_mono_overlap x xs window_len hop_len :
  1 ≤ hop_len → hop_len < window_len →
  outcome (window zero is_zero (Array2 [x :: xs]) window_len hop_len)
  = inl ValueError.
Proof.
  intros Hhop Hwl.
  rewrite (window_outcome [x :: xs] 1 (S (length xs)));
    [|by repeat constructor|lia..].
  rewrite ceil_div_one, Nat.mul_1_l by lia.
  destruct (arange_second window_len hop_len) as [starts ->]; [done..|].
  cbn [forallb]. destruct (Nat.ltb_spec hop_len (1 `min` S (length xs))); [lia|].
  by rewrite andb_false_r.
Qed.
End WindowOutcome.

(** X12. On a buffer with [C ≥ 1] channels of [N ≥ 1] samples and positive
    lengths, [window] returns exactly when every start offset
    [0, hop_len, 2*hop_len, ...] below [ceil(C / window_len) * window_len]
    is below both [C] and [N], and raises ValueError otherwise; when it
    returns, the window at offset [s] holds, per channel, the samples from
    [s] to [min(s + window_len, C, N)] followed by zeros up to [window_len]. *)
Theorem window_returns_iff_starts_in_range {A : Type} (zero : A)
    (is_zero : A → bool) (rows : list (list A)) (C N window_len hop_len : nat) :
  has_shape rows C N → 1 ≤ C → 1 ≤ N → 1 ≤ window_len → 1 ≤ hop_len →
  outcome (window zero is_zero (Array2 rows) window_len hop_len)
  = (if forallb (λ s, s <? C `min` N)
          (arange (ceil_div C window_len * window_len) hop_len)
     then inr (Array3 (map (window_at zero rows window_len)
                         (arange (ceil_div C window_len * window_len) hop_len)))
     else inl ValueError)
  ∧ ∀ s, s < C `min` N →
      window_at zero rows window_len s
      = map (λ r, take (window_len `min` (C `min` N - s)) (drop s r)
                  ++ replicate (window_len - window_len `min` (C `min` N - s))
                       zero) rows
      ∧ has_shape (window_at zero rows window_len s) C window_len.
Proof.
  intros Hshape HC HN Hwl Hhop. split.
  - by apply window_outcome.
  - intros s Hs. by apply window_at_in_range.
Qed.

Lemma window_returns_iff_starts_in_range_witness :
  outcome (window 0%Z is_zero_Z (Array2 [[1; 2; 3]; [4; 5; 6]]%Z) 2 1)
  = (if forallb (λ s, s <? 2 `min` 3) (arange (ceil_div 2 2 * 2) 1)
     then inr (Array3 (map (window_at 0%Z [[1; 2; 3]; [4; 5; 6]]%Z 2)
                         (arange (ceil_div 2 2 * 2) 1)))
     else inl ValueError)
  ∧ ∀ s, s < 2 `min` 3 →
      window_at 0%Z [[1; 2; 3]; [4; 5; 6]]%Z 2 s
      = map (λ r, take (2 `min` (2 `min` 3 - s)) (drop s r)
                  ++ replicate (2 - 2 `min` (2 `min` 3 - s)) 0%Z)
          [[1; 2; 3]; [4; 5; 6]]%Z
      ∧ has_shape (window_at 0%Z [[1; 2; 3]; [4; 5; 6]]%Z 2 s) 2 2.
Proof.
  apply (window_returns_iff_starts_in_range 0%Z is_zero_Z
           [[1; 2; 3]; [4; 5; 6]]%Z 2 3 2 1).
  - split; [reflexivity|]. repeat constructor.
  - lia.
  - lia.
  - lia.
  - lia.
Defined.

(** X13. One channel, no overlap: on a mono buffer with at least one sample
    and [1 ≤ window_len ≤ hop_len], [window] returns a single window, the
    first sample followed by [window_len - 1] zeros, whatever the number of
    samples. *)
Theorem window_mono_single_window {A : Type} (zero : A) (is_zero : A → bool)
    (x : A) (xs : list A) (window_len hop_len : nat) :
  1 ≤ window_len → window_len ≤ hop_len →
  outcome (window zero is_zero (Array2 [x :: xs]) window_len hop_len)
  = inr (Array3 [[x :: replicate (window_len - 1) zero]]).
Proof. apply window_mono_single. Qed.

Lemma window_mono_single_window_witness :
  outcome (window 0%Z is_zero_Z (Array2 [7 :: [8; 9; 10; 11]]%Z) 3 4)
  = inr (Array3 [[7%Z :: replicate (3 - 1) 0%Z]]).
Proof.
  apply (window_mono_single_window 0%Z is_zero_Z 7%Z [8; 9; 10; 11]%Z 3 4); lia.
Defined.

(** X14. One channel, overlap: on a mono buffer with at least one sample and
    [1 ≤ hop_len < window_len] (the defaults, 4800 and 48000, are such a
    pair), [window] raises ValueError: the window at offset [hop_len] is empty
    and cannot be stacked with the first. *)
Theorem window_mono_overlap_raises {A : Type} (zero : A) (is_zero : A → bool)
    (x : A) (xs : list A) (window_len hop_len : nat) :
  1 ≤ hop_len → hop_len < window_len →
  outcome (window zero is_zero (Array2 [x :: xs]) window_len hop_len)
  = inl ValueError.
Proof. apply window_mono_overlap. Qed.

Lemma window_mono_overlap_raises_witness :
  outcome (window 0%Z is_zero_Z (Array2 [7 :: [8; 9; 10; 11]]%Z) 4 2)
  = inl ValueError.
Proof.
  apply (window_mono_overlap_raises 0%Z is_zero_Z 7%Z [8; 9; 10; 11]%Z 4 2); lia.
Defined.

(** ** Downmix, again *)

(** X15. [downmix] always hands back one channel: on every rank-2 buffer and
    for every mean, the result is a buffer of a single row that [_is_mono]
    accepts, and the input wrap of it is that row as a rank-1 signal. *)
Theorem downmix_is_mono {A : Type} (is_zero : A → bool) (mean : list A → A)
    (rows : list (list A)) :
  ∃ out,
    outcome (downmix is_zero mean (Array2 rows)) = inr (Array2 [out])
    ∧ length out = row_len rows
    ∧ outcome (_is_mono is_zero (Array2 [out])) = inr true
    ∧ outcome (downmix is_zero mean (Array2 rows) ≫= librosa_input_wrap is_zero)
      = inr (Array1 out).
Proof.
  exists (map (λ j, mean (column j rows)) (seq 0 (row_len rows))).
  assert (outcome (downmix is_zero mean (Array2 rows))
          = inr (Array2 [map (λ j, mean (column j rows)) (seq 0 (row_len rows))]))
    as Hdown.
  { unfold downmix. by rewrite outcome_bind, check_rank2. }
  split_and!.
  - done.
  - by rewrite length_map, length_seq.
  - by rewrite is_mono_rank2.
  - by rewrite outcome_bind, Hdown, librosa_input_wrap_rank2.
Qed.

(** ** The sample at a timestamp *)

(** X16. [get_audio_from_timestamp] never returns a stretch of audio: when it
    returns, the buffer has rank 2 and the result is the single sample whose
    channel index is the first entry of [timestamp * sr] and whose time index
    is the second. *)
Theorem get_audio_from_timestamp_single_sample {A : Type} (is_zero : A → bool)
    (audio : ndarray A) (sr : Z) (timestamp : timestamp_arg)
    (result : ndarray A) :
  outcome (get_audio_from_timestamp is_zero audio sr timestamp) = inr result →
  ∃ rows i j c k r x,
    audio = Array2 rows
    ∧ timestamp_times timestamp sr !! 0 = Some i
    ∧ timestamp_times timestamp sr !! 1 = Some j
    ∧ py_index (length rows) i = Some c
    ∧ py_index (row_len rows) j = Some k
    ∧ rows !! c = Some r ∧ r !! k = Some x
    ∧ result = Array0 x.
Proof.
  unfold get_audio_from_timestamp. rewrite outcome_bind.
  destruct audio as [x0|xs|rows|blocks]; try done.
  rewrite check_rank2.
  destruct (timestamp_times timestamp sr !! 0) as [i|] eqn:Hi; [|done].
  destruct (timestamp_times timestamp sr !! 1) as [j|] eqn:Hj; [|done].
  cbn [getitem2].
  destruct (py_index (length rows) i) as [c|] eqn:Hc; [|done].
  destruct (py_index (row_len rows) j) as [k|] eqn:Hk; [|done].
  destruct (rows !! c) as [r|] eqn:Hr; [|done]. cbn [mbind option_bind].
  destruct (r !! k) as [x|] eqn:Hx; [|done]. cbn.
  intros [= <-]. by exists rows, i, j, c, k, r, x.
Qed.

Lemma get_audio_from_timestamp_single_sample_witness :
  ∃ rows i j c k r x,
    Array2 [[1; 2; 3]; [4; 5; 6]]%Z = Array2 rows
    ∧ timestamp_times (TimestampArray [1; 2]%Z) 1 !! 0 = Some i
    ∧ timestamp_times (TimestampArray [1; 2]%Z) 1 !! 1 = Some j
    ∧ py_index (length rows) i = Some c
    ∧ py_index (row_len rows) j = Some k
    ∧ rows !! c = Some r ∧ r !! k = Some x
    ∧ Array0 6%Z = Array0 x.
Proof.
  apply (get_audio_from_timestamp_single_sample is_zero_Z
           (Array2 [[1; 2; 3]; [4; 5; 6]]%Z) 1 (TimestampArray [1; 2]%Z)
           (Array0 6%Z)).
  reflexivity.
Defined.

(** X17. The start of the timestamp, scaled by the rate, is read as a channel
    index: on a rank-2 buffer, a timestamp array whose scaled start reaches
    the channel count, the product staying below 2^63, raises IndexError.  On
    a mono buffer that is every start of one second or more. *)
Theorem get_audio_from_timestamp_channel_bound {A : Type} (is_zero : A → bool)
    (rows : list (list A)) (sr t0 : Z) (ts : list Z) :
  (Z.of_nat (length rows) ≤ t0 * sr < 2 ^ 63)%Z →
  outcome (get_audio_from_timestamp is_zero (Array2 rows) sr
             (TimestampArray (t0 :: ts))) = inl IndexError.
Proof.
  intros Hbound. unfold get_audio_from_timestamp.
  rewrite outcome_bind, check_rank2. cbn [timestamp_times map lookup list_lookup].
  destruct (map _ ts !! 0) as [j|]; [|done]. cbn [getitem2].
  unfold int64_mul. rewrite wrap64_small by lia.
  assert (py_index (length rows) (t0 * sr) = None) as ->; [|done].
  unfold py_index.
  destruct (Z.leb_spec 0 (t0 * sr)); [|lia].
  by destruct (Z.ltb_spec (t0 * sr) (Z.of_nat (length rows))); [lia|].
Qed.

Lemma get_audio_from_timestamp_channel_bound_witness :
  outcome (get_audio_from_timestamp is_zero_Z (Array2 [[1; 2; 3]%Z]) 48000
             (TimestampArray (1 :: [2])%Z)) = inl IndexError.
Proof.
  apply (get_audio_from_timestamp_channel_bound is_zero_Z [[1; 2; 3]%Z] 48000 1
           [2%Z]).
  cbn. lia.
Defined.

(** ** Resampling and loading *)

(** X18. [resample] keeps the channel axis: the one channel of a mono buffer
    goes to the resampler as a rank-1 signal and comes back as a one-channel
    buffer of rank 2; a buffer of two or more channels goes to the resampler
    as it is; an exception of the resampler is passed on. *)
Theorem resample_keeps_channel_axis {A : Type} (is_zero : A → bool)
    (resample_1d : list A → Z → Z → py (list A))
    (resample_2d : list (list A) → Z → Z → py (ndarray A))
    (xs ys : list A) (rows : list (list A)) (old_sr new_sr : Z) :
  outcome (resample is_zero resample_1d resample_2d (Array2 [xs]) old_sr new_sr)
  = match outcome (resample_1d xs old_sr new_sr) with
    | inl e => inl e
    | inr resampled => inr (Array2 [resampled])
    end
  ∧ outcome (resample is_zero resample_1d resample_2d (Array2 (xs :: ys :: rows))
               old_sr new_sr)
    = outcome (resample_2d (xs :: ys :: rows) old_sr new_sr).
Proof.
  unfold resample. rewrite !outcome_bind, !check_rank2, !is_mono_rank2.
  cbn [length Nat.eqb getitem0 head from_option].
  rewrite !outcome_bind. cbn [outcome mret py_ret librosa_resample].
  rewrite !outcome_bind. split; [|done].
  by destruct (outcome (resample_1d xs old_sr new_sr)).
Qed.

(** X19. [load_audio_file] returns a buffer of rank 2 and shape (1, N), the
    decoded samples as its one channel (not the rank-1 array its docstring
    names); the input wrap gives the decoded samples back. *)
Theorem load_audio_file_is_mono {A : Type} (is_zero : A → bool)
    (librosa_load : string → Z → py (list A * Z)) (path_to_audio : string)
    (sample_rate rate : Z) (samples : list A) :
  outcome (librosa_load path_to_audio sample_rate) = inr (samples, rate) →
  outcome (load_audio_file librosa_load path_to_audio sample_rate)
  = inr (Array2 [samples])
  ∧ shape (Array2 [samples]) = [1; length samples]
  ∧ outcome (load_audio_file librosa_load path_to_audio sample_rate
             ≫= librosa_input_wrap is_zero)
    = inr (Array1 samples).
Proof.
  intros Hload.
  assert (outcome (load_audio_file librosa_load path_to_audio sample_rate)
          = inr (Array2 [samples])) as Hout.
  { unfold load_audio_file. by rewrite outcome_bind, Hload. }
  split_and!; [done|done|].
  by rewrite outcome_bind, Hout, librosa_input_wrap_rank2.
Qed.

Lemma load_audio_file_is_mono_witness :
  outcome (load_audio_file (λ _ sr, mret ([1; 2; 3]%Z, sr)) "a.wav" 48000)
  = inr (Array2 [[1; 2; 3]%Z])
  ∧ shape (Array2 [[1; 2; 3]%Z]) = [1; length [1; 2; 3]%Z]
  ∧ outcome (load_audio_file (λ _ sr, mret ([1; 2; 3]%Z, sr)) "a.wav" 48000
             ≫= librosa_input_wrap is_zero_Z)
    = inr (Array1 [1; 2; 3]%Z).
Proof.
  apply (load_audio_file_is_mono is_zero_Z (λ _ sr, mret ([1; 2; 3]%Z, sr))
           "a.wav" 48000 48000 [1; 2; 3]%Z).
  reflexivity.
Defined.

(** X20. Loading then windowing with overlap: whenever the decoder returns
    at least one sample and [1 ≤ hop_len < window_len], [window] applied to
    what [load_audio_file] returns raises ValueError. *)
Theorem window_of_loaded_file_raises {A : Type} (zero : A) (is_zero : A → bool)
    (librosa_load : string → Z → py (list A * Z)) (path_to_audio : string)
    (sample_rate rate : Z) (x : A) (xs : list A) (window_len hop_len : nat) :
  outcome (librosa_load path_to_audio sample_rate) = inr (x :: xs, rate) →
  1 ≤ hop_len → hop_len < window_len →
  outcome (load_audio_file librosa_load path_to_audio sample_rate
           ≫= λ audio, window zero is_zero audio window_len hop_len)
  = inl ValueError.
Proof.
  intros Hload Hhop Hwl. rewrite outcome_bind.
  unfold load_audio_file. rewrite outcome_bind, Hload.
  cbn [outcome np_expand_dims mret py_ret fst].
  by apply window_mono_overlap.
Qed.

Lemma window_of_loaded_file_raises_witness :
  outcome (load_audio_file (λ _ sr, mret ([1; 2; 3]%Z, sr)) "a.wav" 48000
           ≫= λ audio, window 0%Z is_zero_Z audio 4 2)
  = inl ValueError.
Proof.
  apply (window_of_loaded_file_raises 0%Z is_zero_Z
           (λ _ sr, mret ([1; 2; 3]%Z, sr)) "a.wav" 48000 48000 1%Z [2; 3]%Z 4 2).
  - reflexivity.
  - lia.
  - lia.
Defined.

(** ** Writing audio files, again *)

(** X21. [write_audio_file] never writes: whatever the arguments, the files
    on disk are left as they were and the call ends in an exception,
    AssertionError for a format outside the accepted ones, the error of the
    existence test when that test fails, FileExistsError when the destination
    exists and [exist_ok] is false, NameError in every other case. *)
Theorem write_audio_file_never_writes {A : Type} (path_suffix : string → string)
    (stat_fails : string → option exn)
    (fs : gmap string (ndarray A * Z)) (audio : ndarray A)
    (path_to_audio : string) (sample_rate : Z) (audio_format : string)
    (exist_ok : bool) :
  (write_audio_file path_suffix stat_fails fs audio path_to_audio sample_rate
     audio_format exist_ok).1 = fs
  ∧ outcome (write_audio_file path_suffix stat_fails fs audio path_to_audio
               sample_rate audio_format exist_ok).2
    = inl (if bool_decide (audio_format ∈ ok_audio_formats)
           then
             match stat_fails (_add_file_format_to_filename path_suffix
                                 path_to_audio audio_format) with
             | Some e => e
             | None =>
                 if bool_decide
                      (is_Some (fs !! _add_file_format_to_filename path_suffix
                                        path_to_audio audio_format))
                    && negb exist_ok
                 then FileExistsError
                 else NameError
             end
           else AssertionError).
Proof.
  unfold write_audio_file, path_exists.
  destruct (bool_decide (audio_format ∈ ok_audio_formats)); cbn [negb]; [|done].
  destruct (stat_fails _) as [e|]; [done|]. cbn [outcome mret py_ret].
  by destruct (bool_decide _ && negb exist_ok).
Qed.

(** ** What the sweep has computed when it raises *)

Section SweepFacts.
Context {T : Type}.
Implicit Types (pre suf rest : list (T * T)) (iv : T * T) (a b : T).

Lemma sweep_raises_after condition iv rest (st : sweep_state T) :
  for_range condition (iv :: rest) (seq 1 (length rest))
    (SweepState iv.1 iv.2 []) = (st, None) →
  sweep condition (iv :: rest) iv = (st, Some IndexError).
Proof.
  intros Hst. unfold sweep, sweep_range. cbn [length].
  rewrite seq_S, for_range_app, Hst. cbn [for_range].
  replace (1 + length rest) with (length (iv :: rest)) by done.
  by rewrite loop_body_past_end.
Qed.

Lemma last_cons_default iv rest (d : T * T) :
  default d (last (iv :: rest)) = default iv (last rest).
Proof. rewrite last_cons. by destruct (last rest). Qed.

Lemma for_range_never_merging pre suf a b acc :
  for_range (λ _ _, false) (pre ++ suf) (seq (length pre) (length suf))
    (SweepState a b acc)
  = (SweepState (default (a, b) (last suf)).1 (default (a, b) (last suf)).2
       (acc ++ zip_with (λ s iv, (s, iv.2)) (a :: suf.*1) suf), None).
Proof.
  revert pre a b acc. induction suf as [|[s e] suf IH]; intros pre a b acc.
  { cbn. by rewrite app_nil_r. }
  cbn [length seq for_range]. unfold loop_body.
  rewrite list_lookup_middle by done. cbn [last_start_time coalesced_timestamps].
  rewrite cons_middle, app_assoc.
  replace (S (length pre)) with (length (pre ++ [(s, e)]))
    by (rewrite length_app; simpl; lia).
  rewrite IH, last_cons_default. cbn [fmap list_fmap fst zip_with snd].
  by rewrite <- app_assoc.
Qed.

Lemma for_range_always_merging pre suf a b acc :
  for_range (λ _ _, true) (pre ++ suf) (seq (length pre) (length suf))
    (SweepState a b acc)
  = (SweepState a (default (a, b) (last suf)).2 acc, None).
Proof.
  revert pre b. induction suf as [|[s e] suf IH]; intros pre b; [done|].
  cbn [length seq for_range]. unfold loop_body.
  rewrite list_lookup_middle by done. cbn [last_start_time coalesced_timestamps].
  rewrite cons_middle, app_assoc.
  replace (S (length pre)) with (length (pre ++ [(s, e)]))
    by (rewrite length_app; simpl; lia).
  rewrite IH, (last_cons_default (s, e) suf (a, b)).
  by destruct (last suf).
Qed.
End SweepFacts.

(** X23. With a condition that never holds, the sweep has appended, when it
    raises, one interval per input interval after the first, running from
    the start of the interval before it to its own end; the input intervals
    themselves are not among the output unless they coincide with these. *)
Theorem sweep_never_merging {T : Type} (iv : T * T) (rest : list (T * T)) :
  sweep (λ _ _, false) (iv :: rest) iv
  = (SweepState (default iv (last rest)).1 (default iv (last rest)).2
       (zip_with (λ s iv', (s, iv'.2)) ((iv :: rest).*1) rest),
     Some IndexError).
Proof.
  apply sweep_raises_after.
  etrans; [apply (for_range_never_merging [iv] rest iv.1 iv.2 [])|].
  by destruct iv.
Qed.

(** X24. With a condition that always holds, the sweep has appended nothing
    when it raises: the merged interval, from the first start to the last
    end, is only carried in the loop variables. *)
Theorem sweep_always_merging {T : Type} (iv : T * T) (rest : list (T * T)) :
  sweep (λ _ _, true) (iv :: rest) iv
  = (SweepState iv.1 (default iv (last rest)).2 [], Some IndexError).
Proof.
  apply sweep_raises_after.
  etrans; [apply (for_range_always_merging [iv] rest iv.1 iv.2 [])|].
  by destruct iv.
Qed.

(** ** More on [window] *)

Section WindowCases.
Context {A : Type}.
Variable zero : A.
Variable is_zero : A → bool.
Implicit Types (rows : list (list A)) (C N : nat).



(** On a buffer without samples every window is empty. *)
Lemma window_at_empty rows C window_len start_idx :
  has_shape rows C 0 → 1 ≤ C →
  window_at zero rows window_len start_idx = replicate C [].
Proof.
  intros Hshape HC.
  pose proof (has_shape_row_len _ _ _ Hshape HC) as HN.
  destruct Hshape as [<- Hrows]. unfold window_at. rewrite HN. clear HN HC.
  replace (((start_idx + window_len) `min` length rows - start_idx) `min`
           (0 - start_idx)) with 0 by lia.
  cbn [Nat.eqb replicate].
  generalize ((start_idx + window_len) `min` length rows - start_idx) as m.
  intros m. induction Hrows as [|r rows Hr _ IH]; [done|].
  cbn [map length replicate]. rewrite IH.
  by rewrite (nil_length_inv r Hr), drop_nil, take_nil.
Qed.

Lemma np_stack_replicate (w : list (list A)) (k : nat) :
  outcome (np_stack (replicate (S k) (Array2 w))) = inr (Array3 (replicate (S k) w)).
Proof.
  unfold np_stack. cbn [replicate].
  assert (forallb (λ w', bool_decide (shape w' = shape (Array2 w)))
            (Array2 w :: replicate k (Array2 w)) = true) as ->.
  { change (Array2 w :: replicate k (Array2 w))
      with (replicate (S k) (Array2 w)).
    induction (S k) as [|m IH]; [done|]. cbn [replicate forallb].
    by rewrite IH, bool_decide_eq_true_2. }
  cbn [outcome mret py_ret]. do 2 f_equal.
  change (Array2 w :: replicate k (Array2 w)) with (replicate (S k) (Array2 w)).
  change (w :: replicate k w) with (replicate (S k) w).
  induction (S k) as [|m IH]; [done|]. cbn. by rewrite <- IH.
Qed.
End WindowCases.

(** X25. A buffer without samples is windowed into empty windows: with
    [C ≥ 1] channels of no samples and positive lengths, [window] returns one
    window of shape (C, 0) per start offset, none of them padded. *)
Theorem window_empty_buffer {A : Type} (zero : A) (is_zero : A → bool)
    (rows : list (list A)) (C window_len hop_len : nat) :
  has_shape rows C 0 → 1 ≤ C → 1 ≤ window_len → 1 ≤ hop_len →
  outcome (window zero is_zero (Array2 rows) window_len hop_len)
  = inr (Array3 (replicate (ceil_div (ceil_div C window_len * window_len) hop_len)
                   (replicate C []))).
Proof.
  intros Hshape HC Hwl Hhop. unfold window.
  rewrite outcome_bind, check_rank2.
  destruct (Nat.eqb_spec window_len 0); [lia|].
  destruct (Nat.eqb_spec hop_len 0); [lia|].
  change (len (Array2 rows)) with (length rows).
  rewrite outcome_bind, (window_loop_rank2 zero is_zero rows C 0) by done.
  cbn [app]. destruct (Hshape) as [-> _]. unfold arange.
  pose proof (ceil_div_pos C window_len HC Hwl).
  pose proof (ceil_div_pos (ceil_div C window_len * window_len) hop_len
                ltac:(nia) Hhop) as Hk.
  destruct (ceil_div (ceil_div C window_len * window_len) hop_len) as [|k];
    [lia|].
  rewrite map_map.
  assert (∀ starts,
    map (λ x, Array2 (window_at zero rows window_len (x * hop_len))) starts
    = replicate (length starts) (Array2 (replicate C []))) as Hempty.
  { intros starts. induction starts as [|s starts IH]; [done|].
    cbn [map length replicate].
    by rewrite IH, (window_at_empty zero rows C). }
  rewrite Hempty, length_seq.
  apply np_stack_replicate.
Qed.

Lemma window_empty_buffer_witness :
  outcome (window 0%Z is_zero_Z (Array2 [[]; []]) 2 1)
  = inr (Array3 (replicate (ceil_div (ceil_div 2 2 * 2) 1) (replicate 2 []))).
Proof.
  apply (window_empty_buffer 0%Z is_zero_Z [[]; []] 2 2 1).
  - split; [reflexivity|]. repeat constructor.
  - lia.
  - lia.
  - lia.
Defined.



(** ** Silence splitting, again *)

(** X2. [split_on_silence] returns no timestamps: whatever the detector
    finds, the call raises AssertionError when the array is not of rank 2,
    and otherwise the IndexError of the sweep. *)
Theorem split_on_silence_never_returns {A : Type} (is_zero : A → bool)
    (librosa_effects_split : ndarray A → Z → list (Z * Z))
    (audio : ndarray A) (sr top_db : Z) (min_silence_duration : Q) :
  outcome (split_on_silence is_zero librosa_effects_split audio sr top_db
             min_silence_duration)
  = inl (if ndim audio =? 2 then IndexError else AssertionError).
Proof.
  unfold split_on_silence. rewrite outcome_bind.
  destruct (Nat.eqb_spec (ndim audio) 2) as [Hrank|Hrank].
  - destruct audio as [x|xs|rows|blocks]; try done.
    rewrite librosa_input_wrap_rank2. cbn [outcome].
    destruct (librosa_effects_split _ top_db) as [|iv rest]; [done|].
    by rewrite coalesce_nonempty_raises.
  - unfold librosa_input_wrap. by rewrite (check_fails is_zero audio Hrank).
Qed.
